(** * run.py: the developer script of pympler

    A shallow embedding of [run.py] (file discovery, directory reset, the
    three task runners and the option dispatcher) together with the part of
    the Python runtime it relies on: [posixpath], [re], a file-system tree,
    the process state (working directory, environment) and the sub-processes
    the script spawns. *)

From Stdlib Require Import ZArith String Ascii List Bool Lia DecimalString.
From stdpp Require Import base option list strings gmap.

Local Open Scope string_scope.
Local Open Scope list_scope.
#[local] Arguments String.append !_ _ / : simpl nomatch.

(** ** posixpath *)

Module Path.

Definition sep : ascii := "/"%char.

Definition is_sep (c : ascii) : bool := Ascii.eqb c sep.

(** [s.startswith('/')] *)
Definition startswith_sep (s : string) : bool :=
  match s with
  | String c _ => is_sep c
  | EmptyString => false
  end.

(** [s.endswith('/')] *)
Fixpoint endswith_sep (s : string) : bool :=
  match s with
  | EmptyString => false
  | String c EmptyString => is_sep c
  | String _ r => endswith_sep r
  end.

(** ['/' in s] *)
Fixpoint has_sep (s : string) : bool :=
  match s with
  | EmptyString => false
  | String c r => is_sep c || has_sep r
  end.

Definition is_empty (s : string) : bool :=
  match s with EmptyString => true | _ => false end.

(** [os.path.join(a, b)] *)
Definition join (a b : string) : string :=
  if startswith_sep b then b
  else if is_empty a || endswith_sep a then a +:+ b
  else a +:+ "/" +:+ b.

(** [os.path.basename(p)], that is [p[p.rfind('/') + 1:]] *)
Fixpoint basename (p : string) : string :=
  match p with
  | EmptyString => EmptyString
  | String c r =>
      if has_sep r then basename r
      else if is_sep c then r
      else p
  end.

(** [p[:p.rfind('/') + 1]], the head [os.path.dirname] starts from *)
Fixpoint head_upto_sep (p : string) : string :=
  match p with
  | EmptyString => EmptyString
  | String c r =>
      if has_sep r then String c (head_upto_sep r)
      else if is_sep c then String c EmptyString
      else EmptyString
  end.

Fixpoint all_sep (s : string) : bool :=
  match s with
  | EmptyString => true
  | String c r => is_sep c && all_sep r
  end.

(** [s.rstrip('/')] *)
Fixpoint rstrip_sep (s : string) : string :=
  match s with
  | EmptyString => EmptyString
  | String c r => if all_sep s then EmptyString else String c (rstrip_sep r)
  end.

(** [os.path.dirname(p)] *)
Definition dirname (p : string) : string :=
  let head := head_upto_sep p in
  if negb (is_empty head) && negb (all_sep head) then rstrip_sep head
  else head.

(** [s.split('/')] *)
Fixpoint split (s : string) : list string :=
  match s with
  | EmptyString => [EmptyString]
  | String c r =>
      if is_sep c then EmptyString :: split r
      else match split r with
           | x :: xs => String c x :: xs
           | [] => [String c EmptyString]
           end
  end.

(** ['/'.join(comps)] *)
Fixpoint join_sep (comps : list string) : string :=
  match comps with
  | [] => EmptyString
  | [c] => c
  | c :: rest => c +:+ "/" +:+ join_sep rest
  end.

Definition is_dot (c : string) : bool := String.eqb c ".".
Definition is_dotdot (c : string) : bool := String.eqb c "..".

(** The loop of [os.path.normpath] over the components of the path. *)
Definition normpath_step (initial_slashes : nat) (new_comps : list string)
    (comp : string) : list string :=
  if is_empty comp || is_dot comp then new_comps
  else if negb (is_dotdot comp)
          || (Nat.eqb initial_slashes 0 && bool_decide (new_comps = []))
          || match last new_comps with
             | Some l => is_dotdot l
             | None => false
             end
  then new_comps ++ [comp]
  else removelast new_comps.

(** [os.path.normpath(path)] *)
Definition normpath (path : string) : string :=
  if is_empty path then "."
  else
    let initial_slashes :=
      match path with
      | String a (String b (String c _)) =>
          if is_sep a then
            if is_sep b && negb (is_sep c) then 2%nat else 1%nat
          else 0%nat
      | String a (String b EmptyString) =>
          if is_sep a then (if is_sep b then 2%nat else 1%nat) else 0%nat
      | String a EmptyString => if is_sep a then 1%nat else 0%nat
      | EmptyString => 0%nat
      end in
    let comps := foldl (normpath_step initial_slashes) [] (split path) in
    let res :=
      (match initial_slashes with
       | 0%nat => ""
       | 1%nat => "/"
       | _ => "//"
       end) +:+ join_sep comps in
    if is_empty res then "." else res.

(** [os.path.abspath(path)], given what [os.getcwd()] returns *)
Definition abspath (getcwd : string) (path : string) : string :=
  normpath (if startswith_sep path then path else join getcwd path).

(** A name a directory entry can have. *)
Definition valid_name (c : string) : bool :=
  negb (is_empty c) && negb (has_sep c) && negb (is_dot c)
  && negb (is_dotdot c).

End Path.

(** ** re: compiled patterns and [match] *)

Module Re.

(** A compiled pattern.  ['^test_[^\n]*.py$'] is [Bol], the literals of
    [test_], [Star (NotIn [newline])], [AnyChar], the literals [p] and
    [y], and [Eol]. *)
Inductive regex : Type :=
| Eps
| Lit (c : ascii)
| AnyChar                         (* [.]: any character but a newline *)
| OneOf (cs : list ascii)         (* [[...]] *)
| NotIn (cs : list ascii)         (* [[^...]] *)
| Bol                             (* [^] *)
| Eol                             (* [$] *)
| Cat (r1 r2 : regex)
| Alt (r1 r2 : regex)
| Star (r : regex).

Definition newline : ascii := ascii_of_nat 10.

Definition mem (c : ascii) (cs : list ascii) : bool :=
  existsb (Ascii.eqb c) cs.

(** [$] without [re.MULTILINE]: at the end of the string, or just before
    a newline that is the last character. *)
Definition at_eol (s : string) : bool :=
  match s with
  | EmptyString => true
  | String c EmptyString => Ascii.eqb c newline
  | _ => false
  end.

(** The iterations of a starred pattern: [step] matches the starred
    pattern once, and a further round is only entered after a round that
    has consumed something, so at most [fuel] rounds, the length of the
    subject, are ever needed; [k] is tried when the rounds are over. *)
Fixpoint star_iter (step : bool -> string -> (bool -> string -> bool) -> bool)
    (k : bool -> string -> bool) (fuel : nat) (bol : bool) (s : string)
    {struct fuel} : bool :=
  match fuel with
  | O => false
  | S fuel' =>
      step bol s
        (fun bol' s' =>
           (String.length s' <? String.length s)%nat
           && star_iter step k fuel' bol' s')
  end
  || k bol s.

(** Backtracking matcher in continuation style.  [bol] tells whether the
    position is the start of the subject, [s] is the rest of the subject,
    [k] is what is left to match. *)
Fixpoint accept (r : regex) (bol : bool) (s : string)
    (k : bool -> string -> bool) {struct r} : bool :=
  match r with
  | Eps => k bol s
  | Lit c =>
      match s with
      | String x s' => Ascii.eqb x c && k false s'
      | EmptyString => false
      end
  | AnyChar =>
      match s with
      | String x s' => negb (Ascii.eqb x newline) && k false s'
      | EmptyString => false
      end
  | OneOf cs =>
      match s with
      | String x s' => mem x cs && k false s'
      | EmptyString => false
      end
  | NotIn cs =>
      match s with
      | String x s' => negb (mem x cs) && k false s'
      | EmptyString => false
      end
  | Bol => bol && k bol s
  | Eol => at_eol s && k bol s
  | Cat r1 r2 => accept r1 bol s (fun bol' s' => accept r2 bol' s' k)
  | Alt r1 r2 => accept r1 bol s k || accept r2 bol s k
  | Star r1 => star_iter (accept r1) k (String.length s) bol s
  end.

(** [pat.match(s)]: the pattern matches at the start of [s]; where the
    match ends is free. *)
Definition re_match (pat : regex) (s : string) : bool :=
  accept pat true s (fun _ _ => true).

(** [pat.fullmatch(s)]: the match has to end at the end of [s]. *)
Definition re_fullmatch (pat : regex) (s : string) : bool :=
  accept pat true s (fun _ s' => Path.is_empty s').

Fixpoint lits (s : string) (k : regex) : regex :=
  match s with
  | EmptyString => k
  | String c r => Cat (Lit c) (lits r k)
  end.

(** [chr(10) not in s] *)
Fixpoint no_newline (s : string) : bool :=
  match s with
  | EmptyString => true
  | String c r => negb (Ascii.eqb c newline) && no_newline r
  end.

(** ['^test_[^\n]*.py$'], the default pattern of [get_files] *)
Definition test_pattern : regex :=
  Cat Bol (lits "test_" (Cat (Star (NotIn [newline]))
                           (Cat AnyChar (lits "py" Eol)))).

(** ['[^\n]*.py$'], the pattern [run_pychecker] passes *)
Definition py_pattern : regex :=
  Cat (Star (NotIn [newline])) (Cat AnyChar (lits "py" Eol)).

End Re.

(** ** The file system *)

Module FS.

(** A file-system object: a regular file, or a directory with its entries
    in listing order.  The trees stand for file systems of regular files and
    directories proper, all of which the process may list, enter and write:
    symbolic links, special files and permissions are outside the model. *)
#[local] Set Warnings "-register-all".
Inductive node : Type :=
| File
| Dir (entries : list (string * node)).
#[local] Set Warnings "register-all".

Fixpoint find_entry (name : string) (es : list (string * node))
    : option node :=
  match es with
  | [] => None
  | (n, x) :: es' => if String.eqb n name then Some x else find_entry name es'
  end.

Fixpoint remove_entry (name : string) (es : list (string * node))
    : list (string * node) :=
  match es with
  | [] => []
  | (n, x) :: es' =>
      if String.eqb n name then remove_entry name es'
      else (n, x) :: remove_entry name es'
  end.

Fixpoint replace_entry (name : string) (x' : node)
    (es : list (string * node)) : list (string * node) :=
  match es with
  | [] => []
  | (n, x) :: es' =>
      if String.eqb n name then (n, x') :: es'
      else (n, x) :: replace_entry name x' es'
  end.

(** The object at an absolute path given by its components. *)
Fixpoint get (n : node) (p : list string) : option node :=
  match p with
  | [] => Some n
  | c :: p' =>
      match n with
      | File => None
      | Dir es =>
          match find_entry c es with
          | Some x => get x p'
          | None => None
          end
      end
  end.

(** Rewrite the entries of the directory at [p]; nothing changes when
    [p] is not a directory. *)
Fixpoint alter_entries (f : list (string * node) -> list (string * node))
    (p : list string) (n : node) : node :=
  match n with
  | File => File
  | Dir es =>
      match p with
      | [] => Dir (f es)
      | c :: p' =>
          match find_entry c es with
          | Some x => Dir (replace_entry c (alter_entries f p' x) es)
          | None => n
          end
      end
  end.

Definition is_dir_at (root : node) (p : list string) : bool :=
  match get root p with
  | Some (Dir _) => true
  | _ => false
  end.

Definition is_file_at (root : node) (p : list string) : bool :=
  match get root p with
  | Some File => true
  | _ => false
  end.

(** One component of a path walk: [cur] has to be a directory; the empty
    component and [.] stay, [..] goes to the parent, a name enters the
    entry of that name. *)
Definition resolve_step (root : node) (cur : option (list string))
    (comp : string) : option (list string) :=
  match cur with
  | None => None
  | Some p =>
      if negb (is_dir_at root p) then None
      else if Path.is_empty comp || Path.is_dot comp then Some p
      else if Path.is_dotdot comp then Some (removelast p)
      else match get root (p ++ [comp]) with
           | Some _ => Some (p ++ [comp])
           | None => None
           end
  end.

(** Path resolution: the absolute components of the object [path] names,
    seen from the working directory [cwd]; [None] when there is none. *)
Definition resolve (root : node) (cwd : list string) (path : string)
    : option (list string) :=
  if Path.is_empty path then None
  else foldl (resolve_step root)
         (Some (if Path.startswith_sep path then [] else cwd))
         (Path.split path).

(** [os.path.isfile(path)] *)
Definition isfile (root : node) (cwd : list string) (path : string) : bool :=
  match resolve root cwd path with
  | Some p => is_file_at root p
  | None => false
  end.

(** [os.path.isdir(path)] *)
Definition isdir (root : node) (cwd : list string) (path : string) : bool :=
  match resolve root cwd path with
  | Some p => is_dir_at root p
  | None => false
  end.

Definition dirnames (es : list (string * node)) : list string :=
  flat_map (fun e => match e.2 with Dir _ => [e.1] | File => [] end) es.

Definition filenames (es : list (string * node)) : list string :=
  flat_map (fun e => match e.2 with Dir _ => [] | File => [e.1] end) es.

(** [os.walk(top)], top-down, on the directory [n] that [top] names: the
    triple of [top] itself, then the walks of its sub-directories
    [os.path.join(top, name)] in listing order. *)
Fixpoint walk_node (top : string) (n : node)
    : list (string * list string * list string) :=
  match n with
  | File => []
  | Dir es =>
      (top, dirnames es, filenames es)
      :: (fix subdirs (l : list (string * node)) :=
            match l with
            | [] => []
            | (name, child) :: l' =>
                match child with
                | Dir _ => walk_node (Path.join top name) child
                | File => []
                end ++ subdirs l'
            end) es
  end.

(** [os.walk(top)]: nothing when [top] cannot be listed. *)
Definition walk (root : node) (cwd : list string) (top : string)
    : list (string * list string * list string) :=
  match resolve root cwd top with
  | Some p =>
      match get root p with
      | Some n => walk_node top n
      | None => []
      end
  | None => []
  end.

(** Well-formed trees: entries have names a directory entry can have. *)
Fixpoint wf (n : node) : bool :=
  match n with
  | File => true
  | Dir es =>
      (fix all (l : list (string * node)) : bool :=
         match l with
         | [] => true
         | (name, child) :: l' => Path.valid_name name && wf child && all l'
         end) es
  end.

(** ** /bin/mkdir -p and /bin/rm -rf *)

(** One component of [mkdir -p]: like [resolve_step], but a missing name
    is created as an empty directory. *)
Definition mkdir_step (st : node * option (list string)) (comp : string)
    : node * option (list string) :=
  let '(root, cur) := st in
  match cur with
  | None => st
  | Some p =>
      if negb (is_dir_at root p) then (root, None)
      else if Path.is_empty comp || Path.is_dot comp then st
      else if Path.is_dotdot comp then (root, Some (removelast p))
      else match get root (p ++ [comp]) with
           | Some _ => (root, Some (p ++ [comp]))
           | None =>
               (alter_entries (fun es => es ++ [(comp, Dir [])]) p root,
                Some (p ++ [comp]))
           end
  end.

(** An argument the two programs read as options, not as a path: it
    starts with a dash and is longer than the dash.  Given such an argument
    in the place of the path, [mkdir -p] and [rm -rf] leave the tree as it
    is; their exit statuses below are those of GNU coreutils. *)
Definition is_option_arg (s : string) : bool :=
  match s with
  | String c (String _ _) => Ascii.eqb c "-"
  | _ => false
  end.

(** The long option a name stands for: itself when it is one, and
    otherwise the only one it abbreviates. *)
Definition long_option (known : list string) (name : string)
    : option string :=
  if existsb (String.eqb name) known then Some name
  else match List.filter (String.prefix name) known with
       | [o] => Some o
       | _ => None
       end.

(** [name=value] *)
Fixpoint split_eq (s : string) : string * option string :=
  match s with
  | EmptyString => (EmptyString, None)
  | String c s' =>
      if Ascii.eqb c "=" then (EmptyString, Some s')
      else let '(n, v) := split_eq s' in (String c n, v)
  end.

Definition mkdir_long_options : list string :=
  ["context"; "help"; "mode"; "parents"; "verbose"; "version"].

(** [mkdir -p arg], [arg] read as options: no directory is named, which is
    an error, unless the help or the version is asked for. *)
Definition mkdir_option_status (arg : string) : Z :=
  match arg with
  | String _ (String _ name) =>
      match long_option mkdir_long_options name with
      | Some o =>
          if String.prefix "--" arg
             && (String.eqb o "help" || String.eqb o "version")
          then 0%Z else 1%Z
      | None => 1%Z
      end
  | _ => 1%Z
  end.

Definition rm_long_options : list string :=
  ["force"; "interactive"; "one-file-system"; "no-preserve-root";
   "preserve-root"; "-presume-input-tty"; "recursive"; "dir"; "verbose";
   "help"; "version"].

(** The short options of [rm]: whether, after them, a missing operand is
    still passed over in silence, as [-f] asks and [-i] and [-I] revoke. *)
Fixpoint rm_short_options (s : string) (quiet : bool) : option bool :=
  match s with
  | EmptyString => Some quiet
  | String c s' =>
      if Ascii.eqb c "f" then rm_short_options s' true
      else if Ascii.eqb c "i" || Ascii.eqb c "I"
      then rm_short_options s' false
      else if Ascii.eqb c "d" || Ascii.eqb c "r" || Ascii.eqb c "R"
              || Ascii.eqb c "v"
      then rm_short_options s' quiet
      else None
  end.

(** [rm -rf arg], [arg] read as options: nothing is named, which [-f]
    allows, unless the option is unknown or turns prompting on. *)
Definition rm_option_status (arg : string) : Z :=
  match arg with
  | String _ (String c rest) =>
      if Ascii.eqb c "-" then
        if Path.is_empty rest then 0%Z
        else
          let '(name, value) := split_eq rest in
          match long_option rm_long_options name, value with
          | Some o, None =>
              if String.eqb o "interactive" then 1%Z
              else if String.eqb o "no-preserve-root"
                      && negb (String.eqb name o)
              then 1%Z else 0%Z
          | Some o, Some v =>
              if String.eqb o "interactive"
              then if negb (Path.is_empty v)
                      && (String.prefix v "never" || String.prefix v "none")
                   then 0%Z else 1%Z
              else if String.eqb o "preserve-root" && String.eqb v "all"
              then 0%Z else 1%Z
          | None, _ => 1%Z
          end
      else
        match rm_short_options (String c rest) true with
        | Some true => 0%Z
        | _ => 1%Z
        end
  | _ => 1%Z
  end.

(** What the system takes as a path: no NUL character in it, no name
    longer than 255 bytes, and 4095 bytes at most in all. *)
Definition within_limits (path : string) : bool :=
  forallb (fun c => negb (Ascii.eqb c Ascii.zero)) (list_ascii_of_string path)
  && forallb (fun c => (String.length c <=? 255)%nat) (Path.split path)
  && (String.length path <=? 4095)%nat.

(** [/bin/mkdir -p path] run in [cwd]: the new tree and the exit status. *)
Definition mkdir_p (root : node) (cwd : list string) (path : string)
    : node * Z :=
  if is_option_arg path then (root, mkdir_option_status path)
  else if Path.is_empty path then (root, 1%Z)
  else
    let '(root', cur) :=
      foldl mkdir_step
        (root, Some (if Path.startswith_sep path then [] else cwd))
        (Path.split path) in
    match cur with
    | Some p => (root', if is_dir_at root' p then 0%Z else 1%Z)
    | None => (root', 1%Z)
    end.

(** [/bin/rm -rf path] run in [cwd].  The path is taken as it is written:
    no shell stands between [_spawn] and the program, so a [*] in it is
    the name of an entry, not a wildcard.  [rm] refuses [.], [..] and the
    root; with [-f] a path that names nothing is not an error. *)
Definition rm_rf (root : node) (cwd : list string) (path : string)
    : node * Z :=
  if is_option_arg path then (root, rm_option_status path)
  else
    match resolve root cwd path with
    | Some p =>
        let lastc := default "" (last (Path.split path)) in
        if Path.is_dot lastc || Path.is_dotdot lastc then (root, 1%Z)
        else match last p with
             | Some name =>
                 (alter_entries (remove_entry name) (removelast p) root, 0%Z)
             | None => (root, 1%Z)
             end
    | None => (root, 0%Z)
    end.

End FS.

(** ** File discovery *)

Section get_files.

Import FS.

Variable root : node.
Variable cwd : list string.

(** The body of the loop over [locations], with [res] threaded through. *)
Definition get_files_location (pat : Re.regex) (res : list string)
    (location : string) : list string :=
  if isfile root cwd location then
    let fn := Path.basename location in
    if Re.re_match pat fn then res ++ [location] else res
  else if isdir root cwd location then
    foldl (fun res '(root', dirs, files) =>
             foldl (fun res fn =>
                      if Re.re_match pat fn
                      then res ++ [Path.join root' fn]
                      else res) res files)
          res (walk root cwd location)
  else res.

Definition get_files (locations : list string) (pattern : Re.regex)
    : list string :=
  let res := [] in
  let pat := pattern in
  foldl (get_files_location pat) res locations.

End get_files.

(** ** The process and its world *)

(** What the script does that can be observed from outside: a line written
    to standard output, and a call of [_spawn] with the argument vector and
    the environment the child inherits. *)
Inductive event : Type :=
| Print (line : string)
| Spawn (argv : list string) (env : gmap string string).

Record world : Type := World {
  fs : FS.node;                    (* the file system *)
  cwd : list string;               (* working directory, absolute components *)
  environ : gmap string string;    (* [os.environ] *)
  trace : list event;              (* events so far, oldest first *)
}.

Inductive exn : Type :=
| OSError
| TypeError.

Inductive result (A : Type) : Type :=
| Ok (a : A) (w : world)
| Raise (e : exn) (w : world).
Arguments Ok {A} a w.
Arguments Raise {A} e w.

Definition world_of {A} (r : result A) : world :=
  match r with
  | Ok _ w => w
  | Raise _ w => w
  end.

Definition M (A : Type) : Type := world -> result A.

Definition ret {A} (a : A) : M A := fun w => Ok a w.

Definition bind {A B} (m : M A) (f : A -> M B) : M B :=
  fun w =>
    match m w with
    | Ok a w' => f a w'
    | Raise e w' => Raise e w'
    end.

Definition raise {A} (e : exn) : M A := fun w => Raise e w.

Declare Scope prog_scope.
Delimit Scope prog_scope with prog.
Bind Scope prog_scope with M.
Notation "x <- m ;; k" := (bind m (fun x => k))
  (at level 100, m at next level, k at level 200, right associativity)
  : prog_scope.
Notation "m ;; k" := (bind m (fun _ => k))
  (at level 100, k at level 200, only parsing, right associativity)
  : prog_scope.
Local Open Scope prog_scope.

(** [if b: m] *)
Definition when (b : bool) (m : M unit) : M unit :=
  if b then m else ret tt.

(** [for x in l: body(x)] *)
Fixpoint for_ {A} (l : list A) (body : A -> M unit) : M unit :=
  match l with
  | [] => ret tt
  | x :: l' => body x ;; for_ l' body
  end.

Definition spawned (t : list event) : list (list string) :=
  flat_map (fun e => match e with Spawn argv _ => [argv] | Print _ => [] end) t.

Definition printed (t : list event) : list string :=
  flat_map (fun e => match e with Print l => [l] | Spawn _ _ => [] end) t.

(** ** Python values *)

Inductive pyver : Type := Py2 | Py3.

(** The values [options.V] can hold: the integer default, or the string
    [optparse] stores for an option declared without a [type]. *)
Inductive pyval : Type :=
| PyInt (z : Z)
| PyStr (s : string).

(** [str(v)] *)
Definition py_str (v : pyval) : string :=
  match v with
  | PyInt z => NilZero.string_of_int (Z.to_int z)
  | PyStr s => s
  end.

(** ['=' * n] *)
Fixpoint py_repeat (c : ascii) (n : nat) : string :=
  match n with
  | O => EmptyString
  | S n' => String c (py_repeat c n')
  end.

(** [a or b] on lists *)
Definition py_or {A} (a b : list A) : list A :=
  match a with
  | [] => b
  | _ => a
  end.

(** ** Command line *)

Record options : Type := Options {
  all : bool;
  changes : bool;
  doctest : bool;
  html : bool;
  latex : bool;
  paper : string;
  linkcheck : bool;
  pychecker : bool;
  OKd : bool;
  V : pyval;
  test : bool;
}.

(** The defaults of the [add_option] calls. *)
Definition default_options : options :=
  {| all := false; changes := false; doctest := false; html := false;
     latex := false; paper := "letter"; linkcheck := false;
     pychecker := false; OKd := false; V := PyInt 2; test := false |}.

(** An option as [optparse] recognises it on the command line.  [--paper]
    and [-v/--verbose] are [store] options with no [type], so the value
    stored is the argument string itself. *)
Inductive cli_opt : Type :=
| OptAll
| OptChanges
| OptDoctest
| OptHtml
| OptLatex
| OptPaper (value : string)
| OptLinkcheck
| OptPychecker
| OptOKd
| OptVerbose (value : string)
| OptTest.

Definition store (o : options) (c : cli_opt) : options :=
  match c with
  | OptAll =>
      Options true (changes o) (doctest o) (html o) (latex o) (paper o)
        (linkcheck o) (pychecker o) (OKd o) (V o) (test o)
  | OptChanges =>
      Options (all o) true (doctest o) (html o) (latex o) (paper o)
        (linkcheck o) (pychecker o) (OKd o) (V o) (test o)
  | OptDoctest =>
      Options (all o) (changes o) true (html o) (latex o) (paper o)
        (linkcheck o) (pychecker o) (OKd o) (V o) (test o)
  | OptHtml =>
      Options (all o) (changes o) (doctest o) true (latex o) (paper o)
        (linkcheck o) (pychecker o) (OKd o) (V o) (test o)
  | OptLatex =>
      Options (all o) (changes o) (doctest o) (html o) true (paper o)
        (linkcheck o) (pychecker o) (OKd o) (V o) (test o)
  | OptPaper value =>
      Options (all o) (changes o) (doctest o) (html o) (latex o) value
        (linkcheck o) (pychecker o) (OKd o) (V o) (test o)
  | OptLinkcheck =>
      Options (all o) (changes o) (doctest o) (html o) (latex o) (paper o)
        true (pychecker o) (OKd o) (V o) (test o)
  | OptPychecker =>
      Options (all o) (changes o) (doctest o) (html o) (latex o) (paper o)
        (linkcheck o) true (OKd o) (V o) (test o)
  | OptOKd =>
      Options (all o) (changes o) (doctest o) (html o) (latex o) (paper o)
        (linkcheck o) (pychecker o) true (V o) (test o)
  | OptVerbose value =>
      Options (all o) (changes o) (doctest o) (html o) (latex o) (paper o)
        (linkcheck o) (pychecker o) (OKd o) (PyStr value) (test o)
  | OptTest =>
      Options (all o) (changes o) (doctest o) (html o) (latex o) (paper o)
        (linkcheck o) (pychecker o) (OKd o) (V o) true
  end.

(** [parser.parse_args()]: the options given are stored from left to right
    over the defaults; the positional arguments are returned as they are. *)
Definition parse_args (given : list cli_opt) (positional : list string)
    : options * list string :=
  (foldl store default_options given, positional).

(** Lines 147-151 of [main]. *)
Definition expand_all (o : options) : options :=
  if all o then
    {| all := all o; changes := changes o; doctest := true; html := true;
       latex := latex o; paper := paper o; linkcheck := linkcheck o;
       pychecker := true; OKd := OKd o; V := V o; test := true |}
  else o.

(** ** The script *)

Section run.

Import FS.

(** The interpreter the script runs under. *)
Variable py : pyver.
(** [sys.executable] and [sys.argv[0]]. *)
Variable sys_executable : string.
Variable sys_argv0 : string.
(** The programs on this machine other than [/bin/mkdir] and [/bin/rm]:
    from the argument vector, the working directory, the environment and
    the file system, the file system the child leaves and its exit
    status; [None] when the program cannot be executed. *)
Variable external :
  list string -> list string -> gmap string string -> node ->
  option (node * Z).

Definition _Python_path : string := sys_executable.
Definition _Sphinx_path : string := "sphinx-build".

(** [print (line)] *)
Definition print (line : string) : M unit :=
  fun w => Ok tt (World (fs w) (cwd w) (environ w) (trace w ++ [Print line])).

(** [os.getcwd()] *)
Definition getcwd : M string :=
  fun w => Ok ("/" +:+ Path.join_sep (cwd w)) w.

(** [os.chdir(path)] *)
Definition chdir (path : string) : M unit :=
  fun w =>
    match resolve (fs w) (cwd w) path with
    | Some p =>
        if is_dir_at (fs w) p
        then Ok tt (World (fs w) p (environ w) (trace w))
        else Raise OSError w
    | None => Raise OSError w
    end.

(** [os.environ[key] = value] *)
Definition setenv (key value : string) : M unit :=
  fun w =>
    Ok tt (World (fs w) (cwd w) (<[key := value]> (environ w)) (trace w)).

(** What running [args] does to the file system, and its exit status.
    [/bin/mkdir] and [/bin/rm] are taken to be installed, and an argument
    vector to be one the system accepts (no NUL character in it, and within
    the size limit), so that these two can always be executed. *)
Definition run_program (args : list string) (w : world) : option (node * Z) :=
  match args with
  | [prog; opt; path] =>
      if String.eqb prog "/bin/mkdir" && String.eqb opt "-p"
      then Some (mkdir_p (fs w) (cwd w) path)
      else if String.eqb prog "/bin/rm" && String.eqb opt "-rf"
      then Some (rm_rf (fs w) (cwd w) path)
      else external args (cwd w) (environ w) (fs w)
  | _ => external args (cwd w) (environ w) (fs w)
  end.

(** [_spawn]: [subprocess.call(args)], which runs the program
    itself, without a shell, waits for it and returns its status. *)
Definition _spawn (args : list string) : M Z :=
  fun w =>
    let w1 := World (fs w) (cwd w) (environ w)
                (trace w ++ [Spawn args (environ w)]) in
    match run_program args w with
    | Some (fs', status) =>
        Ok status (World fs' (cwd w1) (environ w1) (trace w1))
    | None => Raise OSError w1
    end.

(** [verbose > 0] *)
Definition gt_zero (verbose : pyval) : M bool :=
  match verbose with
  | PyInt z => ret (0 <? z)%Z
  | PyStr _ =>
      match py with
      | Py2 => ret true          (* a [str] is above every [int] *)
      | Py3 => raise TypeError
      end
  end.

Definition run_unittests (project_path : string) (dirs : list string)
    (verbose : pyval) : M unit :=
  setenv "PYTHONPATH" project_path ;;
  _ <- _spawn (_Python_path
               :: Path.join "test" "runtest.py"
               :: "-verbose" :: py_str verbose
               :: dirs) ;;
  ret tt.

Definition run_pychecker (dirs : list string) (OKd : bool)
    (verbose : pyval) : M unit :=
  let no_OKd := if OKd then "--" else "-no-OKd" in
  sources <- (fun w => Ok (get_files (fs w) (cwd w) dirs Re.py_pattern) w) ;;
  for_ sources (fun src =>
    b <- gt_zero verbose ;;
    when b (print ("CHECKING " +:+ src +:+ " ...")) ;;
    _ <- _spawn [_Python_path; "tools/pychok.py"; no_OKd;
                 "--stdlib"; "--quiet"; src] ;;
    ret tt).

Definition dir_clear (path : string) : M unit :=
  _ <- _spawn ["/bin/mkdir"; "-p"; path] ;;
  _ <- _spawn ["/bin/rm"; "-rf"; Path.join path "*"] ;;
  ret tt.

Definition run_sphinx (doc_path : string) (builders : list string)
    (paper : string) : M unit :=
  cwd <- getcwd ;;
  chdir doc_path ;;
  let doctrees := Path.join "build" "doctrees" in
  for_ builders (fun builder =>
    let dir := Path.join "build" builder in
    dir_clear dir ;;
    dir_clear doctrees ;;
    let opts := ["-d"; doctrees] in
    let opts :=
      if negb (Path.is_empty paper)
      then opts ++ ["-D"; "latex_paper_size=" +:+ paper]
      else opts in
    let opts := opts ++ ["source"; dir] in
    _ <- _spawn (_Sphinx_path :: "-b" :: builder :: opts) ;;
    ret tt) ;;
  chdir cwd.

Definition print2 (text : string) (verbose : pyval) : M unit :=
  b <- gt_zero verbose ;;
  when b (
    print "" ;;
    when (negb (Path.is_empty text)) (
      print text ;;
      print (py_repeat "=" (String.length text)))).

Definition main (given : list cli_opt) (positional : list string) : M unit :=
  let '(options, args) := parse_args given positional in
  here <- getcwd ;;
  let project_path := Path.abspath here (Path.dirname sys_argv0) in
  let test_path := Path.join project_path "test" in
  let doc_path := Path.join project_path "doc" in
  let options := expand_all options in
  when (pychecker options) (
    print2 "Running pychecker" (V options) ;;
    run_pychecker (py_or args ["pympler"]) (OKd options) (V options)) ;;
  when (changes options) (
    print2 "Creating documentation changes" (V options) ;;
    run_sphinx doc_path ["changes"] "") ;;
  when (doctest options) (
    print2 "Running doctest" (V options) ;;
    run_sphinx doc_path ["doctest"] "") ;;
  when (html options) (
    print2 "Creating HTML documention" (V options) ;;
    run_sphinx doc_path ["html"] "") ;;
  when (latex options) (
    print2 "Creating LaTex (PDF) documention" (V options) ;;
    run_sphinx doc_path ["latex"] (paper options)) ;;
  when (linkcheck options) (
    print2 "Checking documention links" (V options) ;;
    run_sphinx doc_path ["linkcheck"] "") ;;
  when (test options) (
    print2 "Running unittests" (V options) ;;
    run_unittests project_path (py_or args ["test"]) (V options)).

End run.

(** What one root location contributes to the result of [get_files]. *)
Definition location_files (root : FS.node) (cwd : list string)
    (pat : Re.regex) (location : string) : list string :=
  if FS.isfile root cwd location then
    if Re.re_match pat (Path.basename location) then [location] else []
  else if FS.isdir root cwd location then
    flat_map (fun '(root', _, files) =>
                flat_map (fun fn => if Re.re_match pat fn
                                    then [Path.join root' fn] else [])
                         files)
             (FS.walk root cwd location)
  else [].

(** ** The dispatcher, as the specification words it *)

Inductive task : Type :=
| TPychecker | TChanges | TDoctest | THtml | TLatex | TLinkcheck | TTest.

(** The fixed order of the tasks. *)
Definition task_order : list task :=
  [TPychecker; TChanges; TDoctest; THtml; TLatex; TLinkcheck; TTest].

Definition enabled (o : options) (t : task) : bool :=
  match t with
  | TPychecker => pychecker o
  | TChanges => changes o
  | TDoctest => doctest o
  | THtml => html o
  | TLatex => latex o
  | TLinkcheck => linkcheck o
  | TTest => test o
  end.

Definition headline (t : task) : string :=
  match t with
  | TPychecker => "Running pychecker"
  | TChanges => "Creating documentation changes"
  | TDoctest => "Running doctest"
  | THtml => "Creating HTML documention"
  | TLatex => "Creating LaTex (PDF) documention"
  | TLinkcheck => "Checking documention links"
  | TTest => "Running unittests"
  end.

Section dispatch_spec.

Variable py : pyver.
Variable sys_executable : string.
Variable sys_argv0 : string.
Variable external :
  list string -> list string -> gmap string string -> FS.node ->
  option (FS.node * Z).

(** The task runner that belongs to a task, with the arguments the
    dispatcher hands to it. *)
Definition runner (project_path doc_path : string) (o : options)
    (args : list string) (t : task) : M unit :=
  match t with
  | TPychecker =>
      run_pychecker py sys_executable external
        (py_or args ["pympler"]) (OKd o) (V o)
  | TChanges => run_sphinx external doc_path ["changes"] ""
  | TDoctest => run_sphinx external doc_path ["doctest"] ""
  | THtml => run_sphinx external doc_path ["html"] ""
  | TLatex => run_sphinx external doc_path ["latex"] (paper o)
  | TLinkcheck => run_sphinx external doc_path ["linkcheck"] ""
  | TTest =>
      run_unittests sys_executable external project_path
        (py_or args ["test"]) (V o)
  end.

(** In the fixed order, for each enabled flag: print the headline and
    invoke the task runner. *)
Definition dispatch_spec (given : list cli_opt) (positional : list string)
    : M unit :=
  let '(options, args) := parse_args given positional in
  here <- getcwd ;;
  let project_path := Path.abspath here (Path.dirname sys_argv0) in
  let doc_path := Path.join project_path "doc" in
  let options := expand_all options in
  for_ (List.filter (enabled options) task_order)
    (fun t =>
       print2 py (headline t) (V options) ;;
       runner project_path doc_path options args t).

End dispatch_spec.

(** The argument vector of one check of [run_pychecker]. *)
Definition pychok_argv (sys_executable : string) (okd : bool) (src : string)
    : list string :=
  [sys_executable; "tools/pychok.py"; if okd then "--" else "-no-OKd";
   "--stdlib"; "--quiet"; src].

(** ** Traces *)

(** Whatever the world, [m] only appends events to the trace, and every
    event it appends satisfies [Q]; this holds as well when [m] raises. *)
Definition only {A} (Q : event -> Prop) (m : M A) : Prop :=
  forall w, exists t,
    trace (world_of (m w)) = trace w ++ t /\ Forall Q t.

(** The builders [main] passes to [run_sphinx]. *)
Definition builders_of_main : list string :=
  ["changes"; "doctest"; "html"; "latex"; "linkcheck"].

(** An event that is not a documentation build with a paper-size override
    for a builder other than [latex]: a documentation build is a call of
    [sphinx-build -b <builder> <options>]. *)
Definition paper_free (e : event) : Prop :=
  match e with
  | Print _ => True
  | Spawn argv _ =>
      forall builder opts,
        argv = "sphinx-build" :: "-b" :: builder :: opts ->
        In builder builders_of_main
        /\ (builder <> "latex" ->
            opts = ["-d"; "build/doctrees"; "source"; "build/" +:+ builder])
  end.

(** ** Sample worlds *)

(** A project tree with a test directory. *)
Definition fs0 : FS.node :=
  FS.Dir [("test", FS.Dir [("test_a.py", FS.File); ("helper.py", FS.File);
                           ("sub", FS.Dir [("test_b.py", FS.File)])]);
          ("run.py", FS.File)].

(** A checkout of the project at [/proj], the script started from there
    with nothing printed or spawned yet.  [doc/build/html] holds the pages
    of an earlier build. *)
Definition fs_proj : FS.node :=
  FS.Dir [("proj", FS.Dir [
    ("run.py", FS.File);
    ("pympler", FS.Dir [("asizeof.py", FS.File); ("README", FS.File)]);
    ("pkg", FS.Dir [("mod.py", FS.File); ("notes.txt", FS.File);
                    ("sub", FS.Dir [("util.py", FS.File)])]);
    ("test", FS.Dir [("runtest.py", FS.File); ("test_a.py", FS.File)]);
    ("tools", FS.Dir [("pychok.py", FS.File)]);
    ("doc", FS.Dir [
      ("source", FS.Dir [("index.rst", FS.File)]);
      ("build", FS.Dir [("html", FS.Dir [("index.html", FS.File)])])])])].

Definition w_proj : world :=
  {| fs := fs_proj; cwd := ["proj"]; environ := ∅; trace := [] |}.

(** Every other program can be executed, leaves the file system as it is
    and exits with the given status. *)
Definition ext_status (status : Z) :
    list string -> list string -> gmap string string -> FS.node ->
    option (FS.node * Z) :=
  fun _ _ _ n => Some (n, status).

(** The same checkout, the script being in [doc]. *)
Definition w_doc : world :=
  {| fs := fs_proj; cwd := ["proj"; "doc"]; environ := ∅; trace := [] |}.



(** An option that selects a task ([-a] selects four at once); the others
    only set a parameter of the tasks. *)
Definition selects_task (c : cli_opt) : bool :=
  match c with
  | OptPaper _ | OptVerbose _ | OptOKd => false
  | _ => true
  end.

(** The progress line of [run_pychecker]. *)
Definition checking_line (src : string) : string :=
  "CHECKING " +:+ src +:+ " ...".

(** Only the character [c]. *)
Fixpoint all_char (c : ascii) (s : string) : bool :=
  match s with
  | EmptyString => true
  | String x r => Ascii.eqb x c && all_char c r
  end.

(** The argument vector of the documentation build of one builder. *)
Definition sphinx_argv (paper builder : string) : list string :=
  "sphinx-build" :: "-b" :: builder
  :: (["-d"; "build/doctrees"]
      ++ (if negb (Path.is_empty paper)
          then ["-D"; "latex_paper_size=" +:+ paper] else []))
  ++ ["source"; Path.join "build" builder].

(** The commands of one round of the loop of [run_sphinx], in order. *)
Definition builder_commands (paper builder : string) : list (list string) :=
  [ ["/bin/mkdir"; "-p"; Path.join "build" builder];
    ["/bin/rm"; "-rf"; Path.join (Path.join "build" builder) "*"];
    ["/bin/mkdir"; "-p"; "build/doctrees"];
    ["/bin/rm"; "-rf"; "build/doctrees/*"];
    sphinx_argv paper builder ].

(** What one round of the loop of [run_pychecker] appends to the trace
    for an integer verbosity: the progress line when the level is
    positive, then the check. *)
Definition check_events (sys_executable : string) (okd : bool) (verbose : Z)
    (env : gmap string string) (src : string) : list event :=
  (if (0 <? verbose)%Z then [Print (checking_line src)] else [])
  ++ [Spawn (pychok_argv sys_executable okd src) env].

(** * Properties *)

(** ** Strings and paths *)

Section path_facts.

Import Path.

Lemma append_nil_r (s : string) : s +:+ "" = s.
Proof. induction s as [|c s IH]; simpl; [done | by rewrite IH]. Qed.

Lemma length_append (a b : string) :
  String.length (a +:+ b) = (String.length a + String.length b)%nat.
Proof. induction a as [|x a IH]; simpl; [done | by rewrite IH]. Qed.

Lemma append_assoc (a b c : string) : (a +:+ b) +:+ c = a +:+ (b +:+ c).
Proof. induction a as [|x a IH]; simpl; [done | by rewrite IH]. Qed.

Lemma has_sep_app (a b : string) :
  has_sep (a +:+ b) = has_sep a || has_sep b.
Proof.
  induction a as [|c a IH]; simpl; [done|].
  by rewrite IH, orb_assoc.
Qed.

Lemma startswith_no_sep (s : string) :
  has_sep s = false -> startswith_sep s = false.
Proof.
  destruct s as [|c s]; simpl; [done|]. by intros [-> _]%orb_false_iff.
Qed.

(** Behind a separator that is the last one, the base name starts. *)
Lemma basename_after_sep (a b : string) :
  has_sep b = false -> basename (a +:+ String sep b) = b.
Proof.
  intros Hb. induction a as [|c a IH]; simpl.
  - by rewrite Hb.
  - rewrite has_sep_app. simpl. by rewrite orb_true_r.
Qed.

Lemma basename_no_sep (b : string) : has_sep b = false -> basename b = b.
Proof.
  destruct b as [|c b]; simpl; [done|].
  intros [Hc Hb]%orb_false_iff. by rewrite Hb, Hc.
Qed.

Lemma endswith_sep_inv (a : string) :
  endswith_sep a = true -> exists a', a = a' +:+ String sep "".
Proof.
  induction a as [|c a IH]; simpl; [done|].
  destruct a as [|d a].
  - intros Hc. exists "". simpl. f_equal.
    unfold is_sep in Hc. by apply Ascii.eqb_eq in Hc.
  - intros [a' Ha']%IH. exists (String c a'). simpl. by rewrite Ha'.
Qed.

(** [basename(join(a, b))] is [b] for a name [b]. *)
Lemma basename_join (a b : string) :
  has_sep b = false -> basename (join a b) = b.
Proof.
  intros Hb. unfold join. rewrite (startswith_no_sep _ Hb).
  destruct (is_empty a) eqn:Ha; simpl.
  { destruct a; [|done]. simpl. by apply basename_no_sep. }
  destruct (endswith_sep a) eqn:He.
  - apply endswith_sep_inv in He as [a' ->].
    rewrite append_assoc. simpl. by apply basename_after_sep.
  - by apply basename_after_sep.
Qed.

Lemma valid_name_no_sep (c : string) : valid_name c = true -> has_sep c = false.
Proof.
  unfold valid_name. rewrite !andb_true_iff, !negb_true_iff. tauto.
Qed.

Lemma split_no_sep (c : string) : has_sep c = false -> split c = [c].
Proof.
  induction c as [|x c IH]; simpl; [done|].
  intros [-> Hc]%orb_false_iff. by rewrite (IH Hc).
Qed.

Lemma split_app_sep (c rest : string) :
  has_sep c = false -> split (c +:+ String sep rest) = c :: split rest.
Proof.
  induction c as [|x c IH]; simpl; [done|].
  intros [-> Hc]%orb_false_iff. by rewrite (IH Hc).
Qed.

Lemma split_join_sep (cs : list string) :
  cs <> [] -> Forall (fun c => valid_name c = true) cs ->
  split (join_sep cs) = cs.
Proof.
  induction cs as [|c cs IH]; [done|]. intros _ Hall.
  apply Forall_cons_1 in Hall as [Hc Hcs].
  apply valid_name_no_sep in Hc.
  destruct cs as [|d cs].
  - simpl. by apply split_no_sep.
  - change (join_sep (c :: d :: cs))
      with (c +:+ String sep (join_sep (d :: cs))).
    rewrite split_app_sep by done. f_equal. by apply IH.
Qed.

Lemma split_nonempty (s : string) : split s <> [].
Proof.
  destruct s as [|c s]; simpl; [done|].
  destruct (is_sep c); [done|]. by destruct (split s).
Qed.

(** Splitting at a separator splits the list of components. *)
Lemma split_app (a b : string) :
  split (a +:+ String sep b) = split a ++ split b.
Proof.
  induction a as [|c a IH]; simpl; [done|].
  rewrite IH. destruct (is_sep c); [done|].
  pose proof (split_nonempty a). by destruct (split a).
Qed.

(** The components of [join(path, '*')]: those of [path], less a trailing
    empty one, and the star. *)
Lemma split_join_star (path : string) :
  exists l,
    split (join path "*") = l ++ ["*"]
    /\ (split path = l \/ split path = l ++ [""]).
Proof.
  unfold join. simpl startswith_sep. cbv iota.
  destruct (is_empty path) eqn:He; simpl.
  { destruct path; [|done]. exists []. simpl. auto. }
  destruct (endswith_sep path) eqn:Hs.
  - apply endswith_sep_inv in Hs as [a ->]. exists (split a).
    rewrite append_assoc. simpl. rewrite !split_app. simpl. auto.
  - exists (split path). rewrite split_app. simpl. auto.
Qed.

Lemma startswith_sep_join (path b : string) :
  is_empty path = false -> startswith_sep b = false ->
  startswith_sep (join path b) = startswith_sep path.
Proof.
  intros He Hb. unfold join. rewrite Hb, He. simpl.
  destruct path as [|c path]; [done|]. by destruct (endswith_sep _).
Qed.

Lemma is_empty_join (path b : string) :
  is_empty b = false -> is_empty (join path b) = false.
Proof.
  intros Hb. unfold join. destruct (startswith_sep b); [done|].
  destruct (is_empty path || endswith_sep path);
    destruct path; simpl; by try destruct b.
Qed.

End path_facts.

(** ** Patterns *)

Section re_facts.

Import Re.

(** The more the continuation accepts, the more the matcher does. *)
Lemma accept_mono (r : regex) :
  forall (k1 k2 : bool -> string -> bool) bol s,
    (forall b t, k1 b t = true -> k2 b t = true) ->
    accept r bol s k1 = true -> accept r bol s k2 = true.
Proof.
  induction r as [|c| |cs|cs| | |r1 IH1 r2 IH2|r1 IH1 r2 IH2|r IH];
    intros k1 k2 bol s Hk; simpl.
  - apply Hk.
  - destruct s; [done|]. rewrite !andb_true_iff. intros [? ?]; auto.
  - destruct s; [done|]. rewrite !andb_true_iff. intros [? ?]; auto.
  - destruct s; [done|]. rewrite !andb_true_iff. intros [? ?]; auto.
  - destruct s; [done|]. rewrite !andb_true_iff. intros [? ?]; auto.
  - rewrite !andb_true_iff. intros [? ?]; auto.
  - rewrite !andb_true_iff. intros [? ?]; auto.
  - apply IH1. intros b t. by apply IH2.
  - rewrite !orb_true_iff.
    intros [H|H]; [left; by eapply IH1|right; by eapply IH2].
  - generalize (String.length s). intros fuel.
    revert bol s. induction fuel as [|fuel IHf]; intros bol s.
    + simpl. apply Hk.
    + cbn [star_iter]. rewrite !orb_true_iff.
      intros [H|H]; [left|right; by apply Hk].
      eapply IH; [|exact H]. intros b t. cbv beta.
      rewrite !andb_true_iff. intros [Hlt Hit]. split; [done|]. by apply IHf.
Qed.

(** A full match is in particular a match. *)
Lemma re_fullmatch_match (pat : regex) (s : string) :
  re_fullmatch pat s = true -> re_match pat s = true.
Proof. apply accept_mono. done. Qed.

(** The star of [[^\n]*] can run over any text without a newline. *)
Lemma star_notnl_prefix (k : bool -> string -> bool) (rest : string) :
  (forall b, k b rest = true) ->
  forall stem fuel b,
    no_newline stem = true -> (String.length stem <= fuel)%nat ->
    star_iter (accept (NotIn [newline])) k fuel b (stem +:+ rest) = true.
Proof.
  intros Hk. induction stem as [|c stem IH]; intros fuel b Hnl Hfuel.
  - simpl. destruct fuel; simpl; rewrite Hk; by rewrite ?orb_true_r.
  - destruct fuel as [|fuel]; [simpl in Hfuel; lia|].
    simpl in Hnl. apply andb_true_iff in Hnl as [Hc Hnl].
    cbn [star_iter]. apply orb_true_iff. left. simpl.
    rewrite orb_false_r, Hc. simpl.
    rewrite IH; [|done|simpl in Hfuel; lia].
    rewrite andb_true_r. apply Nat.ltb_lt. lia.
Qed.

(** The pattern of [run_pychecker] matches every name that ends in [.py]
    and holds no newline (and others: its dot stands for any character). *)
Lemma py_pattern_dot_py (stem : string) :
  no_newline stem = true -> re_match py_pattern (stem +:+ ".py") = true.
Proof.
  intros Hnl. unfold re_match, py_pattern. cbn [accept].
  apply star_notnl_prefix; [done..|].
  rewrite length_append. lia.
Qed.

End re_facts.

(** ** The file-system tree *)

Section fs_facts.

Import FS.

(** Induction over a tree, with the property known of every entry. *)
Lemma node_ind' (P : node -> Prop) :
  P File ->
  (forall es, Forall (fun e => P e.2) es -> P (Dir es)) ->
  forall n, P n.
Proof.
  intros HF HD. fix IH 1. intros [|es]; [exact HF|]. apply HD.
  induction es as [|e es IHes]; constructor; [apply IH | exact IHes].
Qed.

Lemma wf_Dir (es : list (string * node)) :
  wf (Dir es) = true <->
  Forall (fun e => Path.valid_name e.1 = true /\ wf e.2 = true) es.
Proof.
  induction es as [|[name child] es IH].
  - split; [constructor | done].
  - change (wf (Dir ((name, child) :: es)))
      with (Path.valid_name name && wf child && wf (Dir es)).
    rewrite !andb_true_iff, IH, Forall_cons. simpl. tauto.
Qed.

Lemma find_entry_In (c : string) (es : list (string * node)) (x : node) :
  find_entry c es = Some x -> In (c, x) es.
Proof.
  induction es as [|[n y] es IH]; simpl; [done|].
  destruct (String.eqb n c) eqn:E.
  - apply String.eqb_eq in E as ->. intros [= ->]. by left.
  - intros H. right. by apply IH.
Qed.

Lemma get_wf (p : list string) :
  forall n m, wf n = true -> get n p = Some m -> wf m = true.
Proof.
  induction p as [|c p IH]; intros n m Hn; simpl.
  - by intros [= <-].
  - destruct n as [|es]; [done|].
    destruct (find_entry c es) as [x|] eqn:E; [|done].
    apply IH. apply find_entry_In in E.
    apply wf_Dir in Hn. rewrite Forall_forall in Hn.
    apply list_elem_of_In in E. by destruct (Hn _ E).
Qed.

Lemma filenames_valid (es : list (string * node)) (fn : string) :
  wf (Dir es) = true -> In fn (filenames es) -> Path.valid_name fn = true.
Proof.
  intros Hwf%wf_Dir. unfold filenames. rewrite in_flat_map.
  intros [[name child] [Hin Hfn]]. rewrite Forall_forall in Hwf.
  apply list_elem_of_In in Hin. destruct (Hwf _ Hin) as [Hv _].
  simpl in *. destruct child; [|done]. by destruct Hfn as [<-|[]].
Qed.

(** The walk of a directory, entry by entry. *)
Lemma walk_node_Dir (top : string) (es : list (string * node)) :
  walk_node top (Dir es) =
  (top, dirnames es, filenames es)
  :: flat_map (fun e => match e.2 with
                        | Dir _ => walk_node (Path.join top e.1) e.2
                        | File => []
                        end) es.
Proof.
  simpl. f_equal. induction es as [|[name child] es IH]; [done|].
  simpl. by rewrite IH.
Qed.

(** Every file name a walk reports is the name of a directory entry. *)
Lemma walk_node_files_valid (n : node) :
  forall top r ds fs fn,
    wf n = true -> In (r, ds, fs) (walk_node top n) -> In fn fs ->
    Path.valid_name fn = true.
Proof.
  induction n as [|es IH] using node_ind'; intros top r ds fs fn Hwf.
  - done.
  - rewrite walk_node_Dir. intros [[= <- <- <-]|Hin] Hfn.
    + by eapply filenames_valid.
    + apply in_flat_map in Hin as [[name child] [He Hin]].
      apply list_elem_of_In in He.
      rewrite Forall_forall in IH. specialize (IH _ He).
      apply wf_Dir in Hwf. rewrite Forall_forall in Hwf.
      destruct (Hwf _ He) as [_ Hc]. simpl in *.
      destruct child; [done|]. by eapply IH.
Qed.

Lemma get_app (p q : list string) :
  forall n, get n (p ++ q)
            = match get n p with Some m => get m q | None => None end.
Proof.
  induction p as [|c p IH]; intros n; simpl; [done|].
  destruct n as [|es]; [done|]. by destruct (find_entry c es).
Qed.

Lemma foldl_resolve_None (root : node) (l : list string) :
  foldl (resolve_step root) None l = None.
Proof. induction l; simpl; auto. Qed.

Lemma foldl_resolve_Some (root : node) (l : list string)
    (st : option (list string)) (p : list string) :
  foldl (resolve_step root) st l = Some p -> exists q, st = Some q.
Proof.
  destruct st as [q|]; [eauto|]. by rewrite foldl_resolve_None.
Qed.

Lemma resolve_step_Some (root : node) (st : option (list string))
    (c : string) (p : list string) :
  resolve_step root st c = Some p ->
  exists q, st = Some q /\ is_dir_at root q = true.
Proof.
  destruct st as [q|]; simpl; [|done].
  destruct (is_dir_at root q) eqn:E; simpl; [|done]. intros _. by exists q.
Qed.

Lemma resolve_step_empty (root : node) (st : option (list string))
    (p : list string) :
  resolve_step root st "" = Some p -> st = Some p.
Proof.
  destruct st as [q|]; simpl; [|done].
  destruct (is_dir_at root q); simpl; [|done]. by intros [= ->].
Qed.

Lemma resolve_step_star (root : node) (st : option (list string))
    (p : list string) :
  resolve_step root st "*" = Some p ->
  exists q, st = Some q /\ p = q ++ ["*"] /\ is_dir_at root q = true
            /\ get root (q ++ ["*"]) <> None.
Proof.
  destruct st as [q|]; simpl; [|done].
  destruct (is_dir_at root q) eqn:Hd; simpl; [|done].
  destruct (get root (q ++ ["*"])) eqn:E; [|done].
  intros [= <-]. exists q. by rewrite E.
Qed.

(** The components of [join(path, '*')] lead through [path] to the entry
    named [*] of the directory there. *)
Lemma resolve_join_star (root : node) (cwd : list string) (path : string)
    (p : list string) :
  resolve root cwd (Path.join path "*") = Some p ->
  exists q, p = q ++ ["*"].
Proof.
  unfold resolve. destruct (Path.is_empty _); [done|].
  destruct (split_join_star path) as (l & -> & _).
  rewrite foldl_app. simpl.
  intros (q & _ & -> & _)%resolve_step_star. eauto.
Qed.

Lemma resolve_join_star_absent (root : node) (cwd : list string)
    (path : string) (p : list string) (es : list (string * node)) :
  resolve root cwd path = Some p ->
  get root p = Some (Dir es) ->
  find_entry "*" es = None ->
  resolve root cwd (Path.join path "*") = None.
Proof.
  unfold resolve. destruct (Path.is_empty path) eqn:He; [done|].
  rewrite is_empty_join by done. rewrite startswith_sep_join by done.
  destruct (split_join_star path) as (l & -> & Hl).
  rewrite foldl_app. simpl. intros Hp Hget Hstar.
  assert (foldl (resolve_step root)
            (Some (if Path.startswith_sep path then [] else cwd)) l = Some p)
    as ->.
  { destruct Hl as [Hl|Hl]; rewrite Hl in Hp; [done|].
    rewrite foldl_app in Hp. simpl in Hp. by apply resolve_step_empty in Hp. }
  simpl. destruct (is_dir_at root p); simpl; [|done].
  by rewrite get_app, Hget; simpl; rewrite Hstar.
Qed.

(** Where every component exists, [mkdir -p] only walks. *)
Lemma mkdir_existing (root : node) (l : list string) :
  forall st p,
    foldl (resolve_step root) st l = Some p ->
    foldl mkdir_step (root, st) l = (root, Some p).
Proof.
  induction l as [|c l IH]; intros st p; simpl.
  - by intros ->.
  - intros H. destruct (foldl_resolve_Some _ _ _ _ H) as [q' Hq'].
    rewrite <-(IH _ _ H). f_equal.
    destruct (resolve_step_Some _ _ _ _ Hq') as (q & -> & Hd).
    simpl in *. rewrite Hd in *. simpl in *.
    destruct (Path.is_empty c || Path.is_dot c); [done|].
    destruct (Path.is_dotdot c); [done|].
    by destruct (get root (q ++ [c])).
Qed.

Lemma mkdir_p_existing (root : node) (cwd : list string) (path : string)
    (p : list string) :
  resolve root cwd path = Some p ->
  (mkdir_p root cwd path).1 = root.
Proof.
  unfold resolve, mkdir_p. destruct (is_option_arg path); [done|].
  destruct (Path.is_empty path); [done|].
  intros H. by rewrite (mkdir_existing _ _ _ _ H).
Qed.

Lemma rm_rf_star_absent (root : node) (cwd : list string) (path : string)
    (p : list string) (es : list (string * node)) :
  resolve root cwd path = Some p ->
  get root p = Some (Dir es) ->
  find_entry "*" es = None ->
  (rm_rf root cwd (Path.join path "*")).1 = root.
Proof.
  intros Hp Hget Hstar. unfold rm_rf. destruct (is_option_arg _); [done|].
  by rewrite (resolve_join_star_absent _ _ _ _ _ Hp Hget Hstar).
Qed.

(** *** What [mkdir -p] and [rm -rf path/*] leave in place *)

Lemma find_entry_replace_eq (c : string) (y : node)
    (es : list (string * node)) (x : node) :
  find_entry c es = Some x -> find_entry c (replace_entry c y es) = Some y.
Proof.
  induction es as [|[n z] es IH]; simpl; [done|].
  destruct (String.eqb n c) eqn:E; simpl; rewrite E; [done|]. apply IH.
Qed.

Lemma find_entry_replace_ne (c c' : string) (y : node)
    (es : list (string * node)) :
  c <> c' -> find_entry c (replace_entry c' y es) = find_entry c es.
Proof.
  intros Hne. induction es as [|[n z] es IH]; simpl; [done|].
  destruct (String.eqb n c') eqn:E'; simpl.
  - apply String.eqb_eq in E' as ->.
    destruct (String.eqb c' c) eqn:E; [|done].
    apply String.eqb_eq in E. congruence.
  - by rewrite IH.
Qed.

Lemma find_entry_snoc (c : string) (es : list (string * node))
    (e : string * node) (x : node) :
  find_entry c es = Some x -> find_entry c (es ++ [e]) = Some x.
Proof.
  induction es as [|[n z] es IH]; simpl; [done|].
  by destruct (String.eqb n c).
Qed.

Lemma find_entry_remove (c name : string) (es : list (string * node)) :
  c <> name -> find_entry c (remove_entry name es) = find_entry c es.
Proof.
  intros Hne. induction es as [|[n z] es IH]; simpl; [done|].
  destruct (String.eqb n name) eqn:E; simpl.
  - apply String.eqb_eq in E as ->.
    destruct (String.eqb name c) eqn:E; [|done].
    apply String.eqb_eq in E. congruence.
  - by rewrite IH.
Qed.

Lemma is_dir_at_cons (es : list (string * node)) (c : string)
    (q : list string) :
  is_dir_at (Dir es) (c :: q)
  = match find_entry c es with
    | Some x => is_dir_at x q
    | None => false
    end.
Proof. unfold is_dir_at. simpl. by destruct (find_entry c es). Qed.

(** Rewriting the entries of a directory keeps every directory whose path
    only uses names that the rewriting keeps. *)
Lemma is_dir_at_alter (f : list (string * node) -> list (string * node))
    (q : list string) :
  (forall es c x, In c q -> find_entry c es = Some x ->
                  find_entry c (f es) = Some x) ->
  forall p root,
    is_dir_at root q = true -> is_dir_at (alter_entries f p root) q = true.
Proof.
  induction q as [|c q IH]; intros Hf p root.
  - destruct root as [|es]; [done|]. intros _.
    destruct p as [|c' p]; simpl; [done|]. by destruct (find_entry c' es).
  - destruct root as [|es]; [done|]. rewrite is_dir_at_cons.
    destruct (find_entry c es) as [x|] eqn:Hx; [|done]. intros Hd.
    assert (forall p', is_dir_at (alter_entries f p' x) q = true) as IH'.
    { intros p'. apply IH; [|done]. intros es' c' x' Hin. apply Hf. by right. }
    destruct p as [|c' p]; simpl.
    + rewrite is_dir_at_cons, (Hf es c x); [done|by left|done].
    + destruct (find_entry c' es) as [y|] eqn:Hy.
      * rewrite is_dir_at_cons. destruct (decide (c = c')) as [<-|Hne].
        -- rewrite (find_entry_replace_eq _ _ _ _ Hx).
           assert (y = x) as -> by congruence. apply IH'.
        -- by rewrite find_entry_replace_ne, Hx.
      * by rewrite is_dir_at_cons, Hx.
Qed.

Lemma mkdir_step_is_dir (c0 : list string)
    (st : node * option (list string)) (comp : string) :
  is_dir_at st.1 c0 = true -> is_dir_at (mkdir_step st comp).1 c0 = true.
Proof.
  destruct st as [root [p|]]; simpl; [|done]. intros Hd.
  destruct (is_dir_at root p); simpl; [|done].
  destruct (Path.is_empty comp || Path.is_dot comp); [done|].
  destruct (Path.is_dotdot comp); [done|].
  destruct (get root (p ++ [comp])); simpl; [done|].
  apply is_dir_at_alter; [|done]. intros es c x _. apply find_entry_snoc.
Qed.

Lemma mkdir_p_is_dir (c0 : list string) (root : node) (cwd : list string)
    (path : string) :
  is_dir_at root c0 = true -> is_dir_at (mkdir_p root cwd path).1 c0 = true.
Proof.
  intros Hd. unfold mkdir_p. destruct (is_option_arg path); [done|].
  destruct (Path.is_empty path); [done|].
  assert (forall l st, is_dir_at st.1 c0 = true ->
                       is_dir_at (foldl mkdir_step st l).1 c0 = true) as H.
  { induction l as [|c l IH]; intros st Hst; simpl; [done|].
    by apply IH, mkdir_step_is_dir. }
  specialize (H (Path.split path)
                (root, Some (if Path.startswith_sep path then [] else cwd)) Hd).
  destruct (foldl mkdir_step _ _) as [root' [p|]]; done.
Qed.

Lemma rm_rf_star_is_dir (c0 : list string) (root : node)
    (cwd : list string) (path : string) :
  ~ In "*" c0 -> is_dir_at root c0 = true ->
  is_dir_at (rm_rf root cwd (Path.join path "*")).1 c0 = true.
Proof.
  intros Hstar Hd. unfold rm_rf. destruct (is_option_arg _); [done|].
  destruct (resolve root cwd (Path.join path "*")) as [p|] eqn:Hp; [|done].
  destruct (_ || _); [done|].
  apply resolve_join_star in Hp as [q ->].
  rewrite last_snoc, removelast_last. simpl.
  apply is_dir_at_alter; [|done]. intros es c x Hin Hx.
  rewrite find_entry_remove; [done|]. by intros ->.
Qed.

(** *** The path [os.getcwd()] returns leads back *)

Lemma resolve_step_name (root : node) (acc : list string) (c : string) :
  Path.valid_name c = true ->
  resolve_step root (Some acc) c
  = if is_dir_at root acc
    then match get root (acc ++ [c]) with
         | Some _ => Some (acc ++ [c])
         | None => None
         end
    else None.
Proof.
  unfold Path.valid_name. rewrite !andb_true_iff, !negb_true_iff.
  intros [[[He _] Hd] Hdd]. simpl. rewrite He, Hd, Hdd. simpl.
  by destruct (is_dir_at root acc).
Qed.

Lemma foldl_resolve_names (root : node) (cs : list string) :
  Forall (fun c => Path.valid_name c = true) cs ->
  forall acc p,
    foldl (resolve_step root) (Some acc) cs = Some p -> p = acc ++ cs.
Proof.
  induction 1 as [|c cs Hc Hcs IH]; intros acc p; cbn [foldl].
  - intros [= <-]. by rewrite app_nil_r.
  - rewrite resolve_step_name by done.
    destruct (is_dir_at root acc); [|by rewrite foldl_resolve_None].
    destruct (get root (acc ++ [c])); [|by rewrite foldl_resolve_None].
    intros ->%IH. by rewrite <-app_assoc.
Qed.

Lemma foldl_resolve_dir (root : node) (cs : list string) :
  Forall (fun c => Path.valid_name c = true) cs ->
  forall acc,
    is_dir_at root (acc ++ cs) = true ->
    foldl (resolve_step root) (Some acc) cs = Some (acc ++ cs).
Proof.
  induction 1 as [|c cs Hc Hcs IH]; intros acc Hd; cbn [foldl].
  - by rewrite app_nil_r.
  - rewrite resolve_step_name by done.
    assert (is_dir_at root acc = true /\ get root (acc ++ [c]) <> None)
      as [Ha Hg].
    { unfold is_dir_at in *. rewrite get_app in *.
      destruct (get root acc) as [[|es]|]; [done| |done]. simpl in *.
      by destruct (find_entry c es). }
    rewrite Ha. destruct (get root (acc ++ [c])); [|done].
    rewrite IH; by rewrite <-app_assoc.
Qed.

Lemma is_dir_at_root (root : node) (c0 : list string) :
  is_dir_at root c0 = true -> is_dir_at root [] = true.
Proof.
  unfold is_dir_at. destruct root; [|done]. by destruct c0.
Qed.

(** Where the absolute path of a directory leads, from anywhere. *)
Lemma resolve_getcwd (root : node) (cwd c0 p : list string) :
  Forall (fun c => Path.valid_name c = true) c0 ->
  resolve root cwd ("/" +:+ Path.join_sep c0) = Some p -> p = c0.
Proof.
  intros Hc0. unfold resolve. simpl.
  destruct (is_dir_at root []); simpl; [|by rewrite foldl_resolve_None].
  destruct c0 as [|c c0].
  - simpl. destruct (is_dir_at root []); simpl; congruence.
  - rewrite split_join_sep by done. by intros ->%foldl_resolve_names.
Qed.

Lemma resolve_getcwd_dir (root : node) (cwd c0 : list string) :
  Forall (fun c => Path.valid_name c = true) c0 ->
  is_dir_at root c0 = true ->
  resolve root cwd ("/" +:+ Path.join_sep c0) = Some c0.
Proof.
  intros Hc0 Hd. unfold resolve. simpl.
  rewrite (is_dir_at_root _ _ Hd). simpl.
  destruct c0 as [|c c0].
  - simpl. by rewrite Hd.
  - rewrite split_join_sep by done. by apply foldl_resolve_dir.
Qed.

End fs_facts.

(** ** File discovery *)

Section get_files_facts.

Import FS.

Variable root : node.
Variable cwd : list string.

Lemma foldl_append {A B} (f : list B -> A -> list B) (g : A -> list B) :
  (forall res x, f res x = res ++ g x) ->
  forall l res, foldl f res l = res ++ flat_map g l.
Proof.
  intros Hf. induction l as [|x l IH]; intros res; simpl.
  - by rewrite app_nil_r.
  - by rewrite IH, Hf, <-app_assoc.
Qed.

Lemma get_files_location_app (pat : Re.regex) (res : list string)
    (location : string) :
  get_files_location root cwd pat res location
  = res ++ location_files root cwd pat location.
Proof.
  unfold get_files_location, location_files.
  destruct (isfile root cwd location).
  { destruct (Re.re_match pat _); [done | by rewrite app_nil_r]. }
  destruct (isdir root cwd location); [|by rewrite app_nil_r].
  apply foldl_append. intros res' [[r ds] fs].
  apply foldl_append. intros res'' fn.
  destruct (Re.re_match pat fn); [done | by rewrite app_nil_r].
Qed.

(** The result is the concatenation, in input order, of what each root
    contributes. *)
Lemma get_files_flat_map (locations : list string) (pat : Re.regex) :
  get_files root cwd locations pat
  = flat_map (location_files root cwd pat) locations.
Proof.
  unfold get_files.
  by rewrite (foldl_append _ _ (get_files_location_app pat)).
Qed.

Lemma get_files_app (l1 l2 : list string) (pat : Re.regex) :
  get_files root cwd (l1 ++ l2) pat
  = get_files root cwd l1 pat ++ get_files root cwd l2 pat.
Proof. by rewrite !get_files_flat_map, flat_map_app. Qed.

Lemma location_files_match (pat : Re.regex) (location p : string) :
  wf root = true -> In p (location_files root cwd pat location) ->
  Re.re_match pat (Path.basename p) = true.
Proof.
  intros Hwf. unfold location_files.
  destruct (isfile root cwd location).
  { destruct (Re.re_match pat _) eqn:E; [|done]. by intros [<-|[]]. }
  destruct (isdir root cwd location); [|done].
  rewrite in_flat_map. intros [[[r ds] fs] [Hw Hp]].
  apply in_flat_map in Hp as [fn [Hfn Hp]].
  destruct (Re.re_match pat fn) eqn:E; [|done].
  destruct Hp as [<-|[]].
  unfold walk in Hw.
  destruct (resolve root cwd location) as [q|]; [|done].
  destruct (get root q) as [n|] eqn:Hq; [|done].
  assert (Path.valid_name fn = true) as Hv.
  { eapply walk_node_files_valid; [|exact Hw|exact Hfn]. by eapply get_wf. }
  by rewrite basename_join by by apply valid_name_no_sep.
Qed.

End get_files_facts.

(** ** The monad *)

Section monad_facts.

Lemma bind_ext {A B} (m : M A) (k1 k2 : A -> M B) (w : world) :
  (forall a w', k1 a w' = k2 a w') -> bind m k1 w = bind m k2 w.
Proof. intros H. unfold bind. destruct (m w); [apply H | done]. Qed.

Lemma bind_ret_r (m : M unit) (w : world) : (m ;; ret tt) w = m w.
Proof. unfold bind, ret. by destruct (m w) as [[] w'|]. Qed.

Lemma for_filter_cons {A} (e : A -> bool) (f : A -> M unit) (x : A)
    (l : list A) (w : world) :
  for_ (List.filter e (x :: l)) f w
  = (when (e x) (f x) ;; for_ (List.filter e l) f) w.
Proof. simpl. by destruct (e x). Qed.

End monad_facts.

(** ** The option dispatcher *)

(** C1, as stated, fails: [--all] on its own also turns the doctest flag
    on. *)
Lemma all_enables_doctest :
  all (parse_args [OptAll] []).1 = true
  /\ doctest (parse_args [OptAll] []).1 = false
  /\ doctest (expand_all (parse_args [OptAll] []).1) = true.
Proof. repeat split; reflexivity. Qed.

(** C1, amended: when the [-a/--all] flag is set, the dispatcher
    force-enables exactly the pychecker, doctest, HTML and test flags; the
    LaTeX, linkcheck and changes flags keep the value they had. *)
Theorem expand_all_enables (o : options) :
  all o = true ->
  pychecker (expand_all o) = true
  /\ doctest (expand_all o) = true
  /\ html (expand_all o) = true
  /\ test (expand_all o) = true
  /\ latex (expand_all o) = latex o
  /\ linkcheck (expand_all o) = linkcheck o
  /\ changes (expand_all o) = changes o.
Proof. unfold expand_all. intros ->. simpl. tauto. Qed.

Lemma expand_all_enables_witness :
  pychecker (expand_all (parse_args [OptAll; OptLatex] []).1) = true
  /\ doctest (expand_all (parse_args [OptAll; OptLatex] []).1) = true
  /\ html (expand_all (parse_args [OptAll; OptLatex] []).1) = true
  /\ test (expand_all (parse_args [OptAll; OptLatex] []).1) = true
  /\ latex (expand_all (parse_args [OptAll; OptLatex] []).1) = true
  /\ linkcheck (expand_all (parse_args [OptAll; OptLatex] []).1) = false
  /\ changes (expand_all (parse_args [OptAll; OptLatex] []).1) = false.
Proof.
  apply (expand_all_enables (parse_args [OptAll; OptLatex] []).1).
  reflexivity.
Defined.

(** C8: for every combination of flags, [main] is the loop over the
    enabled tasks in the fixed order pychecker, changes, doctest, html,
    latex, linkcheck, test, each with its headline and its runner; it ends
    in the same result and the same world, whatever the flags are. *)
Theorem main_fixed_order (py : pyver) (sys_executable sys_argv0 : string)
    (external : list string -> list string -> gmap string string ->
                FS.node -> option (FS.node * Z))
    (given : list cli_opt) (positional : list string) (w : world) :
  main py sys_executable sys_argv0 external given positional w
  = dispatch_spec py sys_executable sys_argv0 external given positional w.
Proof.
  unfold main, dispatch_spec, task_order.
  destruct (parse_args given positional) as [o args].
  apply bind_ext. intros here w1.
  repeat (rewrite for_filter_cons; apply bind_ext; intros _ ?).
  by rewrite for_filter_cons, bind_ret_r.
Qed.

(** ** What the script appends to the trace *)

Section trace_facts.

Variable py : pyver.
Variable sys_executable : string.
Variable sys_argv0 : string.
Variable external :
  list string -> list string -> gmap string string -> FS.node ->
  option (FS.node * Z).
Variable Q : event -> Prop.

Lemma only_ret {A} (a : A) : only Q (ret a).
Proof. intros w. exists []. by rewrite app_nil_r. Qed.

Lemma only_raise {A} (e : exn) : only Q (@raise A e).
Proof. intros w. exists []. by rewrite app_nil_r. Qed.

Lemma only_read {A} (f : world -> A) : only Q (fun w => Ok (f w) w).
Proof. intros w. exists []. by rewrite app_nil_r. Qed.

Lemma only_bind {A B} (m : M A) (k : A -> M B) :
  only Q m -> (forall a, only Q (k a)) -> only Q (bind m k).
Proof.
  intros Hm Hk w. unfold bind.
  destruct (Hm w) as (t & Ht & HQ). destruct (m w) as [a w'|e w']; simpl in *.
  - destruct (Hk a w') as (t' & Ht' & HQ'). exists (t ++ t').
    rewrite Ht', Ht, app_assoc. split; [done|]. by apply Forall_app.
  - by exists t.
Qed.

Lemma only_when (b : bool) (m : M unit) : only Q m -> only Q (when b m).
Proof. destruct b; [done|]. intros _. apply only_ret. Qed.

Lemma only_for {A} (l : list A) (body : A -> M unit) :
  (forall x, In x l -> only Q (body x)) -> only Q (for_ l body).
Proof.
  induction l as [|x l IH]; intros H; simpl.
  - apply only_ret.
  - apply only_bind; [apply H; by left|]. intros _. apply IH.
    intros y Hy. apply H. by right.
Qed.

Lemma only_print (line : string) : Q (Print line) -> only Q (print line).
Proof. intros H w. exists [Print line]. split; [done|]. by constructor. Qed.

Lemma only_getcwd : only Q getcwd.
Proof. apply only_read. Qed.

Lemma only_chdir (path : string) : only Q (chdir path).
Proof.
  intros w. exists []. rewrite app_nil_r. split; [|done]. unfold chdir.
  destruct (FS.resolve _ _ _); [|done]. by destruct (FS.is_dir_at _ _).
Qed.

Lemma only_setenv (key value : string) : only Q (setenv key value).
Proof. intros w. exists []. by rewrite app_nil_r. Qed.

Lemma only_gt_zero (v : pyval) : only Q (gt_zero py v).
Proof.
  destruct v; simpl; [apply only_ret|].
  destruct py; [apply only_ret | apply only_raise].
Qed.

Lemma only_spawn (args : list string) :
  (forall env, Q (Spawn args env)) -> only Q (_spawn external args).
Proof.
  intros H w. exists [Spawn args (environ w)]. split; [|by constructor].
  unfold _spawn. by destruct (run_program external args w) as [[fs' st]|].
Qed.

Hypothesis HPrint : forall line, Q (Print line).

Lemma only_print2 (text : string) (v : pyval) : only Q (print2 py text v).
Proof.
  unfold print2. apply only_bind; [apply only_gt_zero|]. intros b.
  apply only_when, only_bind; [by apply only_print|]. intros _.
  apply only_when, only_bind; [by apply only_print|]. intros _.
  by apply only_print.
Qed.

Lemma only_run_unittests (project_path : string) (dirs : list string)
    (v : pyval) :
  (forall env, Q (Spawn (sys_executable :: "test/runtest.py" :: "-verbose"
                         :: py_str v :: dirs) env)) ->
  only Q (run_unittests sys_executable external project_path dirs v).
Proof.
  intros H. unfold run_unittests.
  apply only_bind; [apply only_setenv|]. intros _.
  apply only_bind; [by apply only_spawn|]. intros _. apply only_ret.
Qed.

Lemma only_run_pychecker (dirs : list string) (okd : bool) (v : pyval) :
  (forall src env,
     Q (Spawn [sys_executable; "tools/pychok.py";
               if okd then "--" else "-no-OKd";
               "--stdlib"; "--quiet"; src] env)) ->
  only Q (run_pychecker py sys_executable external dirs okd v).
Proof.
  intros H. unfold run_pychecker.
  apply only_bind; [apply only_read|]. intros sources.
  apply only_for. intros src _.
  apply only_bind; [apply only_gt_zero|]. intros b.
  apply only_bind; [by apply only_when, only_print|]. intros _.
  apply only_bind; [by apply only_spawn|]. intros _. apply only_ret.
Qed.

Lemma only_dir_clear (path : string) :
  (forall env, Q (Spawn ["/bin/mkdir"; "-p"; path] env)) ->
  (forall env, Q (Spawn ["/bin/rm"; "-rf"; Path.join path "*"] env)) ->
  only Q (dir_clear external path).
Proof.
  intros H1 H2. unfold dir_clear.
  apply only_bind; [by apply only_spawn|]. intros _.
  apply only_bind; [by apply only_spawn|]. intros _. apply only_ret.
Qed.

(** The options [run_sphinx] hands to [sphinx-build] for a builder. *)
Lemma only_run_sphinx (doc_path : string) (builders : list string)
    (paper : string) :
  (forall path env, Q (Spawn ["/bin/mkdir"; "-p"; path] env)) ->
  (forall path env, Q (Spawn ["/bin/rm"; "-rf"; path] env)) ->
  (forall builder env,
     In builder builders ->
     Q (Spawn ("sphinx-build" :: "-b" :: builder
               :: (["-d"; "build/doctrees"]
                   ++ (if negb (Path.is_empty paper)
                       then ["-D"; "latex_paper_size=" +:+ paper] else []))
               ++ ["source"; Path.join "build" builder]) env)) ->
  only Q (run_sphinx external doc_path builders paper).
Proof.
  intros Hmk Hrm Hsp. unfold run_sphinx.
  apply only_bind; [apply only_getcwd|]. intros here.
  apply only_bind; [apply only_chdir|]. intros _.
  apply only_bind; [|intros _; apply only_chdir].
  apply only_for. intros builder Hb.
  apply only_bind; [by apply only_dir_clear|]. intros _.
  apply only_bind; [by apply only_dir_clear|]. intros _.
  apply only_bind; [|intros _; apply only_ret].
  apply only_spawn. intros env. specialize (Hsp builder env Hb).
  by destruct (negb (Path.is_empty paper)).
Qed.

End trace_facts.

Lemma spawned_In (t : list event) (argv : list string) :
  In argv (spawned t) -> exists env, In (Spawn argv env) t.
Proof.
  unfold spawned. rewrite in_flat_map. intros [[l|a env] [Hin Ha]]; [done|].
  destruct Ha as [<-|[]]. by exists env.
Qed.

(** ** The documentation runner's options *)

Lemma paper_free_main (py : pyver) (sys_executable sys_argv0 : string)
    (external : list string -> list string -> gmap string string ->
                FS.node -> option (FS.node * Z))
    (given : list cli_opt) (positional : list string) :
  only paper_free (main py sys_executable sys_argv0 external given positional).
Proof.
  assert (forall path env, paper_free (Spawn ["/bin/mkdir"; "-p"; path] env))
    as Hmk by (intros path env b o [=]).
  assert (forall path env, paper_free (Spawn ["/bin/rm"; "-rf"; path] env))
    as Hrm by (intros path env b o [=]).
  assert (forall name doc_path,
            In name builders_of_main -> name <> "latex" ->
            only paper_free (run_sphinx external doc_path [name] "")) as Hdoc.
  { intros name doc_path Hin Hne. apply only_run_sphinx; [done..|].
    intros b env [<-|[]] b' o [= <- <-]. split; [done|]. intros _.
    unfold builders_of_main in Hin. simpl in Hin.
    destruct Hin as [<-|[<-|[<-|[<-|[<-|[]]]]]]; done. }
  unfold main. destruct (parse_args given positional) as [o args].
  apply only_bind; [apply only_getcwd|]. intros here.
  repeat (apply only_bind; [apply only_when, only_bind;
                            [by apply only_print2|intros _] | intros _]).
  - apply only_run_pychecker; [done|]. intros src env b opts [=].
  - apply Hdoc; [simpl; tauto | done].
  - apply Hdoc; [simpl; tauto | done].
  - apply Hdoc; [simpl; tauto | done].
  - apply only_run_sphinx; [done..|].
    intros b env [<-|[]] b' opts [= <- <-]. split; [simpl; tauto | done].
  - apply Hdoc; [simpl; tauto | done].
  - apply only_when, only_bind; [by apply only_print2|intros _].
    apply only_run_unittests. intros env b opts [=].
Qed.

(** C10: for every invocation, a documentation build that [main] spawns
    for a builder other than [latex] has exactly the options
    [-d build/doctrees source build/<builder>]; so a build whose options
    hold [-D], the paper-size override, is a build with the [latex]
    builder, whatever [--paper] was given. *)
Theorem paper_size_only_for_latex (py : pyver)
    (sys_executable sys_argv0 : string)
    (external : list string -> list string -> gmap string string ->
                FS.node -> option (FS.node * Z))
    (given : list cli_opt) (positional : list string) (w : world) :
  exists t,
    trace (world_of
             (main py sys_executable sys_argv0 external given positional w))
    = trace w ++ t
    /\ forall builder opts,
         In ("sphinx-build" :: "-b" :: builder :: opts) (spawned t) ->
         In builder builders_of_main
         /\ (builder <> "latex" ->
             opts = ["-d"; "build/doctrees"; "source"; "build/" +:+ builder])
         /\ (In "-D" opts -> builder = "latex").
Proof.
  destruct (paper_free_main py sys_executable sys_argv0 external
              given positional w) as (t & Ht & HQ).
  exists t. split; [done|]. intros builder opts [env Hin]%spawned_In.
  rewrite Forall_forall in HQ. apply list_elem_of_In in Hin.
  destruct (HQ _ Hin builder opts eq_refl) as [Hb Hopts].
  split; [done|]. split; [done|].
  destruct (decide (builder = "latex")) as [->|Hne]; [done|].
  rewrite (Hopts Hne). unfold builders_of_main in Hb. simpl in Hb.
  destruct Hb as [<-|[<-|[<-|[<-|[<-|[]]]]]]; simpl;
    intros [?|[?|[?|[?|[]]]]]; done.
Qed.

(** With [--latex], the build does carry the override, here the default
    paper size. *)
Example latex_build_has_paper_size :
  spawned (trace (world_of
    (main Py2 "/usr/bin/python" "run.py" (ext_status 0) [OptLatex] [] w_proj)))
  = [ ["/bin/mkdir"; "-p"; "build/latex"];
      ["/bin/rm"; "-rf"; "build/latex/*"];
      ["/bin/mkdir"; "-p"; "build/doctrees"];
      ["/bin/rm"; "-rf"; "build/doctrees/*"];
      ["sphinx-build"; "-b"; "latex"; "-d"; "build/doctrees";
       "-D"; "latex_paper_size=letter"; "source"; "build/latex"] ].
Proof. vm_compute. reflexivity. Qed.

(** ** The test runner *)

Section runner_facts.

Variable py : pyver.
Variable sys_executable : string.
Variable sys_argv0 : string.
Variable external :
  list string -> list string -> gmap string string -> FS.node ->
  option (FS.node * Z).

Lemma bind_assoc {A B C} (m : M A) (f : A -> M B) (g : B -> M C) (w : world) :
  bind (bind m f) g w = bind m (fun a => bind (f a) g) w.
Proof. unfold bind. by destruct (m w). Qed.

Lemma spawned_app (t1 t2 : list event) :
  spawned (t1 ++ t2) = spawned t1 ++ spawned t2.
Proof. apply flat_map_app. Qed.

(** The runner sets [PYTHONPATH] first; the child it then spawns inherits
    it, and gets [-verbose], the level and the directories as they are. *)
Lemma run_unittests_world (project_path : string) (dirs : list string)
    (verbose : pyval) (w : world) :
  let env' := <["PYTHONPATH" := project_path]> (environ w) in
  let argv := sys_executable :: "test/runtest.py" :: "-verbose"
              :: py_str verbose :: dirs in
  let r := run_unittests sys_executable external project_path dirs verbose w in
  environ (world_of r) = env'
  /\ cwd (world_of r) = cwd w
  /\ trace (world_of r) = trace w ++ [Spawn argv env']
  /\ (external argv (cwd w) env' (fs w) <> None -> exists w', r = Ok tt w').
Proof.
  simpl. unfold run_unittests, bind, setenv, _spawn, run_program. simpl.
  destruct dirs as [|d dirs]; simpl.
  - destruct (external _ _ _ _) as [[fs' st]|]; simpl; [|done].
    repeat split; eauto.
  - destruct (external _ _ _ _) as [[fs' st]|]; simpl; [|done].
    repeat split; eauto.
Qed.

End runner_facts.

(** C7: started as [--test] with no positional argument, [main] prints the
    headline and calls the test runner with the directories [["test"]] and
    verbosity 2; the runner sets [PYTHONPATH] to the project root and then
    spawns [test/runtest.py -verbose 2 test] under this interpreter, the
    child inheriting that environment; where the interpreter can be executed
    [main] returns. *)
Theorem test_flag_runs_unittests (py : pyver)
    (sys_executable sys_argv0 : string)
    (external : list string -> list string -> gmap string string ->
                FS.node -> option (FS.node * Z))
    (w : world) :
  let project_path :=
    Path.abspath ("/" +:+ Path.join_sep (cwd w)) (Path.dirname sys_argv0) in
  let env' := <["PYTHONPATH" := project_path]> (environ w) in
  let argv := [sys_executable; "test/runtest.py"; "-verbose"; "2"; "test"] in
  let r := main py sys_executable sys_argv0 external [OptTest] [] w in
  r = (print2 py "Running unittests" (PyInt 2) ;;
       run_unittests sys_executable external project_path ["test"] (PyInt 2)) w
  /\ environ (world_of r) = env'
  /\ trace (world_of r)
     = trace w ++ [Print ""; Print "Running unittests";
                   Print "================="; Spawn argv env']
  /\ (external argv (cwd w) env' (fs w) <> None -> exists w', r = Ok tt w').
Proof.
  intros project_path env' argv r.
  assert (r = (print2 py "Running unittests" (PyInt 2) ;;
               run_unittests sys_executable external project_path ["test"]
                 (PyInt 2)) w) as Hr by reflexivity.
  split; [done|]. rewrite Hr. clear Hr r.
  set (w1 := {| fs := fs w; cwd := cwd w; environ := environ w;
                trace := trace w ++ [Print ""; Print "Running unittests";
                                     Print "================="] |}).
  assert ((print2 py "Running unittests" (PyInt 2) ;;
           run_unittests sys_executable external project_path ["test"]
             (PyInt 2)) w
          = run_unittests sys_executable external project_path ["test"]
              (PyInt 2) w1) as ->.
  { unfold bind, print2, gt_zero, ret, when, print, w1. simpl.
    by rewrite <-!app_assoc. }
  destruct (run_unittests_world sys_executable external project_path
              ["test"] (PyInt 2) w1) as (He & _ & Ht & Hok).
  split; [exact He|]. split; [|exact Hok].
  rewrite Ht. unfold w1. simpl. by rewrite <-app_assoc.
Qed.

Lemma test_flag_runs_unittests_witness :
  main Py3 "/usr/bin/python" "run.py" (ext_status 1) [OptTest] [] w_proj
  = Ok tt {| fs := fs_proj; cwd := ["proj"];
             environ := <["PYTHONPATH" := "/proj"]> ∅;
             trace := [Print ""; Print "Running unittests";
                       Print "=================";
                       Spawn ["/usr/bin/python"; "test/runtest.py";
                              "-verbose"; "2"; "test"]
                             (<["PYTHONPATH" := "/proj"]> ∅)] |}.
Proof.
  destruct (test_flag_runs_unittests Py3 "/usr/bin/python" "run.py"
              (ext_status 1) w_proj) as (_ & _ & _ & Hok).
  destruct Hok as [w' Hw']; [done|].
  rewrite Hw'. vm_compute in Hw'. by injection Hw' as <-.
Defined.

(** ** The static-analysis runner *)

Section pychecker_facts.

Variable py : pyver.
Variable sys_executable : string.
Variable external :
  list string -> list string -> gmap string string -> FS.node ->
  option (FS.node * Z).
Variable okd : bool.

Hypothesis Hexec : forall src c env n,
  external (pychok_argv sys_executable okd src) c env n <> None.


Lemma for_cons_ok {A} (x : A) (l : list A) (body : A -> M unit)
    (w w2 : world) :
  body x w = Ok tt w2 -> for_ (x :: l) body w = for_ l body w2.
Proof. intros H. simpl. unfold bind. by rewrite H. Qed.



End pychecker_facts.




(** ** Headlines and the verbosity level *)

Lemma trace_bind_prefix {A B} (m : M A) (k : A -> M B) (w : world)
    (t0 : list event) :
  (forall a, only (fun _ => True) (k a)) ->
  trace (world_of (m w)) = trace w ++ t0 ->
  exists t, trace (world_of (bind m k w)) = trace w ++ t0 ++ t.
Proof.
  intros Hk Hm. unfold bind. destruct (m w) as [a w1|e w1]; simpl in *.
  - destruct (Hk a w1) as (t & Ht & _). exists t. by rewrite Ht, Hm, app_assoc.
  - exists []. by rewrite app_nil_r.
Qed.

(** With the integer 0 as the level, [print2] prints nothing at all. *)
Lemma print2_int_zero (py : pyver) (text : string) (w : world) :
  print2 py text (PyInt 0) w = Ok tt w.
Proof. reflexivity. Qed.

(** C3, the code at [--all -v 0]: the level [optparse] stores is the string
    ["0"], not the integer.  Under Python 2 the comparison [verbose > 0] is
    true of it, so the headline is printed, blank line and underline
    included; under Python 3 the comparison raises [TypeError] in the first
    [print2], before any runner is invoked. *)
Theorem verbose_zero_on_command_line (sys_executable sys_argv0 : string)
    (external : list string -> list string -> gmap string string ->
                FS.node -> option (FS.node * Z))
    (positional : list string) (w : world) :
  V (parse_args [OptAll; OptVerbose "0"] positional).1 = PyStr "0"
  /\ (exists t,
        trace (world_of (main Py2 sys_executable sys_argv0 external
                           [OptAll; OptVerbose "0"] positional w))
        = trace w ++ [Print ""; Print "Running pychecker";
                      Print "================="] ++ t)
  /\ main Py3 sys_executable sys_argv0 external
       [OptAll; OptVerbose "0"] positional w
     = Raise TypeError w.
Proof.
  split; [done|]. split; [|done].
  unfold main. cbn [parse_args foldl store default_options].
  unfold bind at 1. cbn [getcwd].
  cbn [expand_all all pychecker changes doctest html latex linkcheck test
       OKd V paper when].
  rewrite bind_assoc. apply trace_bind_prefix.
  - intros _.
    repeat first [ done | apply only_print2 | apply only_run_pychecker
                 | apply only_run_sphinx | apply only_run_unittests
                 | apply only_when | apply only_ret
                 | apply only_bind; [|intros ?] ].
  - unfold print2, bind, gt_zero, ret, when, print. simpl.
    by rewrite <-!app_assoc.
Qed.

(** ** Directory reset *)

(** C4, the code on a directory that holds something: when [path] names
    an existing directory with no entry called [*], [dir_clear] spawns
    [mkdir -p] and [rm -rf path/*], returns, and leaves the file system as
    it was: [rm] is handed the star itself, there is no entry of that name,
    and the entries of the directory stay.  The world it ends in meets the
    same conditions, so a second call does the same. *)
Theorem dir_clear_leaves_contents
    (external : list string -> list string -> gmap string string ->
                FS.node -> option (FS.node * Z))
    (w : world) (path : string) (p : list string)
    (es : list (string * FS.node)) :
  FS.resolve (fs w) (cwd w) path = Some p ->
  FS.get (fs w) p = Some (FS.Dir es) ->
  FS.find_entry "*" es = None ->
  dir_clear external path w
  = Ok tt {| fs := fs w; cwd := cwd w; environ := environ w;
             trace := trace w
                      ++ [Spawn ["/bin/mkdir"; "-p"; path] (environ w);
                          Spawn ["/bin/rm"; "-rf"; Path.join path "*"]
                                (environ w)] |}.
Proof.
  intros Hp Hget Hstar.
  pose proof (mkdir_p_existing _ _ _ _ Hp) as Hmk.
  pose proof (rm_rf_star_absent _ _ _ _ _ Hp Hget Hstar) as Hrm.
  unfold dir_clear, bind, _spawn, run_program, ret. simpl.
  destruct (FS.mkdir_p (fs w) (cwd w) path) as [fs1 st1].
  simpl in Hmk. subst fs1. simpl.
  destruct (FS.rm_rf (fs w) (cwd w) (Path.join path "*")) as [fs2 st2].
  simpl in Hrm. subst fs2.
  by rewrite <-app_assoc.
Qed.

Lemma dir_clear_leaves_contents_witness :
  FS.get (fs w_doc) ["proj"; "doc"; "build"; "html"]
  = Some (FS.Dir [("index.html", FS.File)])
  /\ dir_clear (ext_status 0) "build/html" w_doc
     = Ok tt {| fs := fs w_doc; cwd := ["proj"; "doc"]; environ := ∅;
                trace := [Spawn ["/bin/mkdir"; "-p"; "build/html"] ∅;
                          Spawn ["/bin/rm"; "-rf"; "build/html/*"] ∅] |}.
Proof.
  split; [reflexivity|].
  apply (dir_clear_leaves_contents (ext_status 0) w_doc "build/html"
           ["proj"; "doc"; "build"; "html"] [("index.html", FS.File)]);
    reflexivity.
Defined.

(** ** The documentation runner and the working directory *)

Section sphinx_facts.

Import FS.

Variable external :
  list string -> list string -> gmap string string -> node ->
  option (node * Z).

Lemma chdir_Ok (path : string) (w w' : world) :
  chdir path w = Ok tt w' ->
  exists p, resolve (fs w) (cwd w) path = Some p /\ cwd w' = p.
Proof.
  unfold chdir. destruct (resolve _ _ _) as [p|]; [|done].
  destruct (is_dir_at _ _); [|done]. intros [= <-]. by exists p.
Qed.

(** What is known when [run_sphinx] returns: the last thing it did was to
    change to the directory it had started in. *)
Lemma run_sphinx_Ok (doc_path : string) (builders : list string)
    (paper : string) (w w' : world) :
  run_sphinx external doc_path builders paper w = Ok tt w' ->
  exists w2, chdir ("/" +:+ Path.join_sep (cwd w)) w2 = Ok tt w'.
Proof.
  unfold run_sphinx. unfold bind at 1. cbn [getcwd].
  unfold bind at 1. destruct (chdir doc_path w) as [[] w1|]; [|done].
  unfold bind at 1. destruct (for_ _ _ w1) as [[] w2|]; [|done]. eauto.
Qed.

(** The directory the script started in. *)
Variable c0 : list string.

Hypothesis Hstar : ~ In "*" c0.
Hypothesis Hext : forall argv c env n,
  exists n' status,
    external argv c env n = Some (n', status)
    /\ (is_dir_at n c0 = true -> is_dir_at n' c0 = true).

Lemma dir_clear_keeps (path : string) (w : world) :
  is_dir_at (fs w) c0 = true ->
  exists w', dir_clear external path w = Ok tt w'
             /\ is_dir_at (fs w') c0 = true.
Proof.
  intros Hd. unfold dir_clear, bind, _spawn, run_program, ret. simpl.
  destruct (mkdir_p (fs w) (cwd w) path) as [fs1 st1] eqn:E1. simpl.
  destruct (rm_rf fs1 (cwd w) (Path.join path "*")) as [fs2 st2] eqn:E2.
  eexists. split; [done|]. simpl.
  change fs2 with (fs2, st2).1. rewrite <-E2. apply rm_rf_star_is_dir; [done|].
  change fs1 with (fs1, st1).1. rewrite <-E1. by apply mkdir_p_is_dir.
Qed.

Lemma spawn_other_keeps (x1 x2 x3 x4 : string) (rest : list string)
    (w : world) :
  is_dir_at (fs w) c0 = true ->
  exists status w',
    _spawn external (x1 :: x2 :: x3 :: x4 :: rest) w = Ok status w'
    /\ is_dir_at (fs w') c0 = true.
Proof.
  intros Hd. unfold _spawn, run_program.
  destruct (Hext (x1 :: x2 :: x3 :: x4 :: rest)
              (cwd w) (environ w) (fs w)) as (n' & st & -> & Hn').
  eexists _, _. split; [done|]. by apply Hn'.
Qed.

Lemma sphinx_loop_keeps (paper : string) (builders : list string) :
  forall w,
    is_dir_at (fs w) c0 = true ->
    exists w',
      for_ builders (fun builder =>
        let dir := Path.join "build" builder in
        dir_clear external dir ;;
        dir_clear external (Path.join "build" "doctrees") ;;
        let opts := ["-d"; Path.join "build" "doctrees"] in
        let opts :=
          if negb (Path.is_empty paper)
          then opts ++ ["-D"; "latex_paper_size=" +:+ paper]
          else opts in
        let opts := opts ++ ["source"; dir] in
        _ <- _spawn external (_Sphinx_path :: "-b" :: builder :: opts) ;;
        ret tt) w = Ok tt w'
      /\ is_dir_at (fs w') c0 = true.
Proof.
  induction builders as [|builder builders IH]; intros w Hd.
  - by exists w.
  - cbn [for_]. unfold bind at 1. unfold bind at 1.
    destruct (dir_clear_keeps (Path.join "build" builder) w Hd)
      as (w1 & -> & Hd1).
    unfold bind at 1.
    destruct (dir_clear_keeps (Path.join "build" "doctrees") w1 Hd1)
      as (w2 & -> & Hd2).
    unfold bind at 1.
    destruct (negb (Path.is_empty paper)); cbn [app];
      (match goal with
       | |- context [_spawn external (?x1 :: ?x2 :: ?x3 :: ?x4 :: ?rest) w2] =>
           destruct (spawn_other_keeps x1 x2 x3 x4 rest w2 Hd2)
             as (st & w3 & -> & Hd3)
       end);
      cbn [ret]; by apply IH.
Qed.

Lemma run_sphinx_returns (doc_path : string) (builders : list string)
    (paper : string) (w : world) :
  cwd w = c0 ->
  Forall (fun c => Path.valid_name c = true) c0 ->
  is_dir_at (fs w) c0 = true ->
  isdir (fs w) (cwd w) doc_path = true ->
  exists w', run_sphinx external doc_path builders paper w = Ok tt w'.
Proof.
  intros Hc0 Hv Hd Hdoc. unfold run_sphinx. unfold bind at 1. cbn [getcwd].
  unfold bind at 1. unfold chdir at 1. unfold isdir in Hdoc.
  destruct (resolve (fs w) (cwd w) doc_path) as [d|]; [|done].
  rewrite Hdoc. unfold bind at 1.
  destruct (sphinx_loop_keeps paper builders
              {| fs := fs w; cwd := d; environ := environ w;
                 trace := trace w |} Hd) as (w2 & Hloop & Hd2).
  cbv zeta in Hloop. rewrite Hloop.
  unfold chdir. rewrite Hc0, (resolve_getcwd_dir _ _ _ Hv Hd2), Hd2. eauto.
Qed.

End sphinx_facts.

(** C5: whatever the documentation root, the builders and the paper size,
    when [run_sphinx] returns the working directory is the one the caller
    had before the call.  And it does return, after the whole loop over the
    builders, when the documentation root is a directory, the programs it
    spawns can be executed and they leave the caller's directory in place
    (which must not lie under an entry named [*], the one name
    [rm -rf build/<builder>/*] removes). *)
Theorem run_sphinx_restores_cwd
    (external : list string -> list string -> gmap string string ->
                FS.node -> option (FS.node * Z))
    (doc_path : string) (builders : list string) (paper : string)
    (w : world) :
  Forall (fun c => Path.valid_name c = true) (cwd w) ->
  (forall w', run_sphinx external doc_path builders paper w = Ok tt w' ->
              cwd w' = cwd w)
  /\ (FS.is_dir_at (fs w) (cwd w) = true ->
      FS.isdir (fs w) (cwd w) doc_path = true ->
      ~ In "*" (cwd w) ->
      (forall argv c env n,
         exists n' status,
           external argv c env n = Some (n', status)
           /\ (FS.is_dir_at n (cwd w) = true ->
               FS.is_dir_at n' (cwd w) = true)) ->
      exists w', run_sphinx external doc_path builders paper w = Ok tt w'
                 /\ cwd w' = cwd w).
Proof.
  intros Hv.
  assert (forall w', run_sphinx external doc_path builders paper w = Ok tt w'
                     -> cwd w' = cwd w) as Hback.
  { intros w' [w2 Hcd]%run_sphinx_Ok.
    apply chdir_Ok in Hcd as (p & Hp & ->). by eapply resolve_getcwd. }
  split; [exact Hback|]. intros Hd Hdoc Hstar Hext.
  destruct (run_sphinx_returns external (cwd w) Hstar Hext doc_path builders
              paper w eq_refl Hv Hd Hdoc) as [w' Hw'].
  exists w'. split; [done|]. by apply Hback.
Qed.

Lemma run_sphinx_restores_cwd_witness :
  exists w',
    run_sphinx (ext_status 2) "/proj/doc" ["html"; "doctest"] "" w_proj
    = Ok tt w'
    /\ cwd w' = ["proj"].
Proof.
  destruct (run_sphinx_restores_cwd (ext_status 2) "/proj/doc"
              ["html"; "doctest"] "" w_proj) as [_ H].
  { by repeat constructor. }
  apply H.
  - reflexivity.
  - reflexivity.
  - simpl. intros [?|[]]. done.
  - intros argv c env n. by exists n, 2%Z.
Defined.

(** The scenario of the specification: roots [["test"]] holding
    [test_a.py] and [helper.py], searched with the default pattern. *)
Example get_files_scenario :
  get_files (FS.Dir [("test", FS.Dir [("test_a.py", FS.File);
                                      ("helper.py", FS.File)])])
    [] ["test"] Re.test_pattern
  = ["test/test_a.py"].
Proof. reflexivity. Qed.

(** C2, as stated, fails: with the pattern [test] the file [test_a.py] is
    returned, and the pattern does not match its base name in full. *)
Lemma get_files_not_fullmatch :
  In "test/test_a.py" (get_files fs0 [] ["test"] (Re.lits "test" Re.Eps))
  /\ Re.re_fullmatch (Re.lits "test" Re.Eps) (Path.basename "test/test_a.py")
     = false.
Proof. split; [left|]; reflexivity. Qed.

(** C2, amended: in a well-formed file system, for every list of roots and
    every pattern, the pattern matches at the start of the base name of
    every path [get_files] returns, in the sense of [re.match]: anchored at
    the start of the base name only. *)
Theorem get_files_basename_match (root : FS.node) (cwd : list string)
    (locations : list string) (pattern : Re.regex) (p : string) :
  FS.wf root = true ->
  In p (get_files root cwd locations pattern) ->
  Re.re_match pattern (Path.basename p) = true.
Proof.
  intros Hwf. rewrite get_files_flat_map, in_flat_map.
  intros [location [_ Hp]]. by eapply location_files_match.
Qed.

Lemma get_files_basename_match_witness :
  Re.re_match Re.test_pattern (Path.basename "test/sub/test_b.py") = true.
Proof.
  apply (get_files_basename_match fs0 [] ["test"]).
  - reflexivity.
  - right. left. reflexivity.
Defined.

(** C9, as stated, fails: a file root listed twice is returned twice, and
    so is a file root that a directory root also reaches. *)
Lemma get_files_root_twice :
  FS.isfile fs0 [] "run.py" = true
  /\ Re.re_match Re.py_pattern (Path.basename "run.py") = true
  /\ count_occ string_dec
       (get_files fs0 [] ["run.py"; "run.py"] Re.py_pattern) "run.py" = 2%nat
  /\ count_occ string_dec
       (get_files fs0 [] ["test"; "test/test_a.py"] Re.py_pattern)
       "test/test_a.py" = 2%nat.
Proof. repeat split; reflexivity. Qed.

(** C9, amended: among the contributions of the other roots, in input
    order, a root that is a regular file whose base name the pattern
    matches contributes exactly one entry, the path string itself; a root
    that is neither an existing file nor an existing directory contributes
    nothing.  So the path of a file root occurs in the result once more
    than the other roots produce it. *)
Theorem get_files_root_contribution (root : FS.node) (cwd : list string)
    (before after : list string) (r : string) (pattern : Re.regex) :
  (FS.isfile root cwd r = true ->
   Re.re_match pattern (Path.basename r) = true ->
   get_files root cwd (before ++ r :: after) pattern
   = get_files root cwd before pattern ++ r :: get_files root cwd after pattern
   /\ count_occ string_dec
        (get_files root cwd (before ++ r :: after) pattern) r
      = S (count_occ string_dec (get_files root cwd before pattern) r
           + count_occ string_dec (get_files root cwd after pattern) r))
  /\ (FS.isfile root cwd r = false ->
      FS.isdir root cwd r = false ->
      get_files root cwd (before ++ r :: after) pattern
      = get_files root cwd before pattern ++ get_files root cwd after pattern).
Proof.
  rewrite (get_files_app root cwd before (r :: after)).
  change (r :: after) with ([r] ++ after).
  rewrite (get_files_app root cwd [r] after).
  rewrite (get_files_flat_map root cwd [r]). simpl. rewrite app_nil_r.
  unfold location_files. split.
  - intros -> ->. split; [done|].
    rewrite count_occ_app. simpl.
    destruct (string_dec r r); [lia | done].
  - by intros -> ->.
Qed.

Lemma get_files_root_contribution_witness :
  get_files fs0 [] (["test"] ++ "run.py" :: ["nowhere"]) Re.py_pattern
  = get_files fs0 [] ["test"] Re.py_pattern
    ++ "run.py" :: get_files fs0 [] ["nowhere"] Re.py_pattern
  /\ get_files fs0 [] (["test"] ++ "nowhere" :: ["run.py"]) Re.py_pattern
     = get_files fs0 [] ["test"] Re.py_pattern
       ++ get_files fs0 [] ["run.py"] Re.py_pattern.
Proof.
  split.
  - apply (get_files_root_contribution fs0 [] ["test"] ["nowhere"] "run.py");
      reflexivity.
  - apply (get_files_root_contribution fs0 [] ["test"] ["run.py"] "nowhere");
      reflexivity.
Defined.


(** * Further properties of the script *)

(** ** Directory reset *)

Section dir_clear_more.

Import FS.

Variable external :
  list string -> list string -> gmap string string -> node ->
  option (node * Z).

(** The world [dir_clear] ends in: the statuses of the two commands are
    dropped. *)
Lemma dir_clear_world (path : string) (w : world) :
  dir_clear external path w
  = Ok tt {| fs := (rm_rf (mkdir_p (fs w) (cwd w) path).1 (cwd w)
                      (Path.join path "*")).1;
             cwd := cwd w; environ := environ w;
             trace := trace w
                      ++ [Spawn ["/bin/mkdir"; "-p"; path] (environ w);
                          Spawn ["/bin/rm"; "-rf"; Path.join path "*"]
                                (environ w)] |}.
Proof.
  unfold dir_clear, bind, _spawn, run_program, ret. simpl.
  destruct (mkdir_p (fs w) (cwd w) path) as [fs1 st1]. simpl.
  destruct (rm_rf fs1 (cwd w) (Path.join path "*")) as [fs2 st2]. simpl.
  by rewrite <-app_assoc.
Qed.

Lemma resolve_join_star_notdir (root : node) (cwd : list string)
    (path : string) (p : list string) :
  resolve root cwd path = Some p ->
  is_dir_at root p = false ->
  resolve root cwd (Path.join path "*") = None.
Proof.
  unfold resolve. destruct (Path.is_empty path) eqn:He; [done|].
  rewrite is_empty_join by done. rewrite startswith_sep_join by done.
  destruct (split_join_star path) as (l & -> & Hl).
  rewrite foldl_app. simpl. intros Hp Hd.
  assert (foldl (resolve_step root)
            (Some (if Path.startswith_sep path then [] else cwd)) l = Some p)
    as ->.
  { destruct Hl as [Hl|Hl]; rewrite Hl in Hp; [done|].
    rewrite foldl_app in Hp. simpl in Hp. by apply resolve_step_empty in Hp. }
  simpl. by rewrite Hd.
Qed.

End dir_clear_more.

(** X2: on a path that names a regular file, [dir_clear] returns as if all
    were well and leaves the file system as it was: [mkdir -p] creates
    nothing, [rm -rf path/*] removes nothing, and the path is still a
    regular file, not a directory. *)
Theorem dir_clear_on_regular_file
    (external : list string -> list string -> gmap string string ->
                FS.node -> option (FS.node * Z))
    (path : string) (w : world) :
  FS.isfile (fs w) (cwd w) path = true ->
  exists w',
    dir_clear external path w = Ok tt w'
    /\ fs w' = fs w
    /\ FS.isfile (fs w') (cwd w') path = true
    /\ FS.isdir (fs w') (cwd w') path = false.
Proof.
  intros Hfile. rewrite dir_clear_world. eexists. split; [done|].
  unfold FS.isfile in Hfile.
  destruct (FS.resolve (fs w) (cwd w) path) as [p|] eqn:Hp; [|done].
  assert (FS.is_dir_at (fs w) p = false) as Hd.
  { unfold FS.is_file_at, FS.is_dir_at in *.
    by destruct (FS.get (fs w) p) as [[|es]|]. }
  pose proof (mkdir_p_existing _ _ _ _ Hp) as Hmk.
  assert ((FS.rm_rf (fs w) (cwd w) (Path.join path "*")).1 = fs w) as Hrm.
  { unfold FS.rm_rf. destruct (FS.is_option_arg _); [done|].
    by rewrite (resolve_join_star_notdir _ _ _ _ Hp Hd). }
  cbn [fs cwd]. rewrite Hmk, Hrm.
  split; [done|]. unfold FS.isfile, FS.isdir. rewrite Hp, Hd.
  split; [|done]. unfold FS.is_file_at, FS.is_dir_at in *.
  by destruct (FS.get (fs w) p) as [[|es]|].
Qed.

Lemma dir_clear_on_regular_file_witness :
  exists w',
    dir_clear (ext_status 0) "run.py" w_proj = Ok tt w'
    /\ fs w' = fs w_proj
    /\ FS.isfile (fs w') (cwd w') "run.py" = true
    /\ FS.isdir (fs w') (cwd w') "run.py" = false.
Proof.
  apply (dir_clear_on_regular_file (ext_status 0) "run.py" w_proj).
  reflexivity.
Defined.

(** ** The documentation runner *)

Section run_sphinx_more.

Import FS.

Variable external :
  list string -> list string -> gmap string string -> node ->
  option (node * Z).

(** One round of the loop: both directories are reset, then the build is
    spawned; the round raises exactly when the build cannot be executed. *)
Lemma sphinx_round (paper builder : string) (w : world) :
  exists fs4,
    let after := fun fs' =>
      {| fs := fs'; cwd := cwd w; environ := environ w;
         trace := trace w
                  ++ map (fun a => Spawn a (environ w))
                         (builder_commands paper builder) |} in
    (let dir := Path.join "build" builder in
     dir_clear external dir ;;
     dir_clear external (Path.join "build" "doctrees") ;;
     let opts := ["-d"; Path.join "build" "doctrees"] in
     let opts :=
       if negb (Path.is_empty paper)
       then opts ++ ["-D"; "latex_paper_size=" +:+ paper]
       else opts in
     let opts := opts ++ ["source"; dir] in
     _ <- _spawn external (_Sphinx_path :: "-b" :: builder :: opts) ;;
     ret tt) w
    = match external (sphinx_argv paper builder) (cwd w) (environ w) fs4 with
      | Some (fs5, _) => Ok tt (after fs5)
      | None => Raise OSError (after fs4)
      end.
Proof.
  cbv zeta. unfold bind at 1. rewrite dir_clear_world.
  unfold bind at 1. rewrite dir_clear_world. cbn [fs cwd environ trace].
  match goal with
  | |- context [World ?f _ _ _] => exists f
  end.
  unfold bind at 1, _spawn, run_program, builder_commands, sphinx_argv.
  cbn [fs cwd environ trace].
  destruct (negb (Path.is_empty paper)); cbn [app];
    (destruct (external _ _ _ _) as [[fs5 st]|]; cbn [ret];
     f_equal; f_equal; cbn; by rewrite <-!app_assoc).
Qed.

Lemma sphinx_loop_commands (paper : string) (builders : list string) :
  (forall b c env n,
     In b builders -> external (sphinx_argv paper b) c env n <> None) ->
  forall w, exists w',
    for_ builders (fun builder =>
      let dir := Path.join "build" builder in
      dir_clear external dir ;;
      dir_clear external (Path.join "build" "doctrees") ;;
      let opts := ["-d"; Path.join "build" "doctrees"] in
      let opts :=
        if negb (Path.is_empty paper)
        then opts ++ ["-D"; "latex_paper_size=" +:+ paper]
        else opts in
      let opts := opts ++ ["source"; dir] in
      _ <- _spawn external (_Sphinx_path :: "-b" :: builder :: opts) ;;
      ret tt) w = Ok tt w'
    /\ cwd w' = cwd w
    /\ environ w' = environ w
    /\ trace w' = trace w
                  ++ map (fun a => Spawn a (environ w))
                         (flat_map (builder_commands paper) builders).
Proof.
  induction builders as [|b builders IH]; intros Hexec w.
  - exists w. simpl. by rewrite app_nil_r.
  - destruct (sphinx_round paper b w) as [fs4 Hround].
    destruct (external (sphinx_argv paper b) (cwd w) (environ w) fs4)
      as [[fs5 st]|] eqn:E; [|apply Hexec in E; [done|by left]].
    erewrite for_cons_ok; [|exact Hround].
    match goal with |- context [for_ _ _ ?w5] =>
      destruct (IH (fun b' c env n Hb => Hexec b' c env n (or_intror Hb)) w5)
        as (w' & -> & Hc & He & Ht) end.
    exists w'. split; [done|]. cbn in Hc, He, Ht.
    rewrite Hc, He, Ht. split; [done|]. split; [done|].
    cbn [flat_map]. rewrite map_app, <-!app_assoc. done.
Qed.

End run_sphinx_more.

(** X3: when the documentation root is not an existing directory,
    [run_sphinx] raises [OSError] from its [os.chdir] before it does
    anything else: nothing is spawned and the world is as it was. *)
Theorem run_sphinx_missing_root
    (external : list string -> list string -> gmap string string ->
                FS.node -> option (FS.node * Z))
    (doc_path : string) (builders : list string) (paper : string)
    (w : world) :
  FS.isdir (fs w) (cwd w) doc_path = false ->
  run_sphinx external doc_path builders paper w = Raise OSError w.
Proof.
  intros Hdoc. unfold run_sphinx. unfold bind at 1. cbn [getcwd].
  unfold bind at 1, chdir at 1. unfold FS.isdir in Hdoc.
  destruct (FS.resolve (fs w) (cwd w) doc_path) as [d|]; [|done].
  by rewrite Hdoc.
Qed.

Lemma run_sphinx_missing_root_witness :
  run_sphinx (ext_status 0) "/proj/docs" ["html"] "" w_proj
  = Raise OSError w_proj.
Proof.
  apply (run_sphinx_missing_root (ext_status 0) "/proj/docs" ["html"] ""
           w_proj).
  reflexivity.
Defined.

(** X4: when the documentation root is a directory and the builds can be
    executed, the sub-processes of [run_sphinx] are, builder by builder and
    in the order of the list: [mkdir -p] and [rm -rf] for [build/<builder>],
    the same two for [build/doctrees], then [sphinx-build]; the two commands
    for [build/doctrees] are thus spawned anew before every build, and
    nothing is printed.  This holds whether or not the closing [os.chdir]
    succeeds, and says which commands are spawned, not what they achieve. *)
Theorem run_sphinx_commands
    (external : list string -> list string -> gmap string string ->
                FS.node -> option (FS.node * Z))
    (doc_path : string) (builders : list string) (paper : string)
    (w : world) :
  FS.isdir (fs w) (cwd w) doc_path = true ->
  (forall b c env n,
     In b builders -> external (sphinx_argv paper b) c env n <> None) ->
  trace (world_of (run_sphinx external doc_path builders paper w))
  = trace w ++ map (fun a => Spawn a (environ w))
                   (flat_map (builder_commands paper) builders).
Proof.
  intros Hdoc Hexec. unfold run_sphinx. unfold bind at 1. cbn [getcwd].
  unfold bind at 1, chdir at 1. unfold FS.isdir in Hdoc.
  destruct (FS.resolve (fs w) (cwd w) doc_path) as [d|]; [|done].
  rewrite Hdoc. unfold bind at 1.
  destruct (sphinx_loop_commands external paper builders Hexec
              {| fs := fs w; cwd := d; environ := environ w;
                 trace := trace w |}) as (w2 & Hloop & _ & _ & Ht).
  cbv zeta in Hloop. rewrite Hloop. cbn in Ht. rewrite <-Ht.
  unfold chdir. destruct (FS.resolve _ _ _); [|done].
  by destruct (FS.is_dir_at (fs w2) _).
Qed.

Lemma run_sphinx_commands_witness :
  spawned (trace (world_of
    (run_sphinx (ext_status 1) "doc" ["html"; "doctest"] "" w_proj)))
  = [ ["/bin/mkdir"; "-p"; "build/html"];
      ["/bin/rm"; "-rf"; "build/html/*"];
      ["/bin/mkdir"; "-p"; "build/doctrees"];
      ["/bin/rm"; "-rf"; "build/doctrees/*"];
      ["sphinx-build"; "-b"; "html"; "-d"; "build/doctrees"; "source";
       "build/html"];
      ["/bin/mkdir"; "-p"; "build/doctest"];
      ["/bin/rm"; "-rf"; "build/doctest/*"];
      ["/bin/mkdir"; "-p"; "build/doctrees"];
      ["/bin/rm"; "-rf"; "build/doctrees/*"];
      ["sphinx-build"; "-b"; "doctest"; "-d"; "build/doctrees"; "source";
       "build/doctest"] ].
Proof.
  rewrite (run_sphinx_commands (ext_status 1) "doc" ["html"; "doctest"] ""
             w_proj); [reflexivity | reflexivity | done].
Defined.

(** X5: there is no clean-up on failure.  When the documentation root is
    a directory but the build of the first builder cannot be executed,
    [run_sphinx] raises [OSError] after the two resets of that builder, no
    later builder is touched, and the working directory stays the
    documentation root instead of the caller's directory. *)
Theorem run_sphinx_failed_build
    (external : list string -> list string -> gmap string string ->
                FS.node -> option (FS.node * Z))
    (doc_path : string) (builder : string) (builders : list string)
    (paper : string) (w : world) (d : list string) :
  FS.resolve (fs w) (cwd w) doc_path = Some d ->
  FS.is_dir_at (fs w) d = true ->
  (forall c env n, external (sphinx_argv paper builder) c env n = None) ->
  exists w',
    run_sphinx external doc_path (builder :: builders) paper w
    = Raise OSError w'
    /\ cwd w' = d
    /\ trace w' = trace w ++ map (fun a => Spawn a (environ w))
                                 (builder_commands paper builder).
Proof.
  intros Hd Hdir Hnone. unfold run_sphinx. unfold bind at 1. cbn [getcwd].
  unfold bind at 1, chdir at 1. rewrite Hd, Hdir. unfold bind at 1.
  cbn [for_]. unfold bind at 1.
  destruct (sphinx_round external paper builder
              {| fs := fs w; cwd := d; environ := environ w;
                 trace := trace w |}) as [fs4 Hround].
  rewrite Hnone in Hround. cbv zeta in Hround. rewrite Hround.
  by eexists.
Qed.

Lemma run_sphinx_failed_build_witness :
  exists w',
    run_sphinx (fun _ _ _ _ => None) "doc" ["html"; "doctest"] "" w_proj
    = Raise OSError w'
    /\ cwd w' = ["proj"; "doc"]
    /\ trace w' = trace w_proj
                  ++ map (fun a => Spawn a (environ w_proj))
                         (builder_commands "" "html").
Proof.
  apply (run_sphinx_failed_build (fun _ _ _ _ => None) "doc" "html"
           ["doctest"] "" w_proj ["proj"; "doc"]); reflexivity.
Defined.

(** ** The dispatcher without a task *)

Lemma store_keeps_flags (given : list cli_opt) :
  Forall (fun c => selects_task c = false) given ->
  forall o,
    let o' := foldl store o given in
    all o' = all o /\ changes o' = changes o /\ doctest o' = doctest o
    /\ html o' = html o /\ latex o' = latex o /\ linkcheck o' = linkcheck o
    /\ pychecker o' = pychecker o /\ test o' = test o.
Proof.
  induction 1 as [|c given Hc _ IH]; intros o; [done|].
  cbn [foldl]. cbv zeta in *.
  destruct (IH (store o c)) as (-> & -> & -> & -> & -> & -> & -> & ->).
  by destruct c.
Qed.

(** X6: started with no option that selects a task (only [--paper],
    [-v/--verbose] or [--OKd], or nothing at all), [main] returns without
    printing, spawning or changing anything, whatever the positional
    arguments are; there is no usage message. *)
Theorem main_without_task (py : pyver) (sys_executable sys_argv0 : string)
    (external : list string -> list string -> gmap string string ->
                FS.node -> option (FS.node * Z))
    (given : list cli_opt) (positional : list string) (w : world) :
  Forall (fun c => selects_task c = false) given ->
  main py sys_executable sys_argv0 external given positional w = Ok tt w.
Proof.
  intros Hgiven.
  destruct (store_keeps_flags given Hgiven default_options)
    as (Ha & Hc & Hd & Hh & Hl & Hi & Hp & Ht). cbn in *.
  unfold main, parse_args, expand_all. rewrite Ha.
  unfold bind at 1. cbn [getcwd]. rewrite Hc, Hd, Hh, Hl, Hi, Hp, Ht.
  reflexivity.
Qed.

Lemma main_without_task_witness :
  main Py3 "/usr/bin/python" "run.py" (ext_status 0)
    [OptVerbose "3"; OptPaper "a4"; OptOKd] ["pympler"] w_proj
  = Ok tt w_proj.
Proof.
  apply (main_without_task Py3 "/usr/bin/python" "run.py" (ext_status 0)
           [OptVerbose "3"; OptPaper "a4"; OptOKd] ["pympler"] w_proj).
  by repeat constructor.
Defined.

(** ** The static-analysis runner, in general *)

Section run_pychecker_more.

Variable py : pyver.
Variable sys_executable : string.
Variable external :
  list string -> list string -> gmap string string -> FS.node ->
  option (FS.node * Z).
Variable okd : bool.
Variable verbose : Z.

Abbreviation round := (fun src : string =>
  b <- gt_zero py (PyInt verbose) ;;
  when b (print ("CHECKING " +:+ src +:+ " ...")) ;;
  _ <- _spawn external
         [_Python_path sys_executable; "tools/pychok.py";
          if okd then "--" else "-no-OKd"; "--stdlib"; "--quiet"; src] ;;
  ret tt).

(** One round: it raises exactly when the check cannot be executed. *)
Lemma check_round (src : string) (w : world) :
  round src w
  = let after := fun fs' =>
      {| fs := fs'; cwd := cwd w; environ := environ w;
         trace := trace w
                  ++ check_events sys_executable okd verbose (environ w)
                       src |} in
    match external (pychok_argv sys_executable okd src)
            (cwd w) (environ w) (fs w) with
    | Some (fs', _) => Ok tt (after fs')
    | None => Raise OSError (after (fs w))
    end.
Proof.
  unfold bind at 1. cbn [gt_zero ret]. unfold check_events, checking_line.
  destruct (0 <? verbose)%Z; cbn [when]; unfold bind at 1; cbn [print ret];
    unfold bind at 1, _spawn, run_program, pychok_argv;
    cbn [fs cwd environ trace];
    destruct (external _ _ _ _) as [[fs' st]|]; cbn [ret];
    f_equal; f_equal; cbn; by rewrite <-?app_assoc.
Qed.

(** The rounds of the sources that can be checked. *)
Lemma check_rounds (pre : list string) :
  (forall s c env n,
     In s pre -> external (pychok_argv sys_executable okd s) c env n <> None) ->
  forall rest w, exists fs',
    for_ (pre ++ rest) round w
    = for_ rest round
        {| fs := fs'; cwd := cwd w; environ := environ w;
           trace := trace w
                    ++ flat_map (check_events sys_executable okd verbose
                                   (environ w)) pre |}.
Proof.
  induction pre as [|s pre IH]; intros Hexec rest w.
  - exists (fs w). simpl. rewrite app_nil_r. by destruct w.
  - pose proof (check_round s w) as Hround. cbv zeta in Hround.
    destruct (external (pychok_argv sys_executable okd s) (cwd w)
                (environ w) (fs w)) as [[fs1 st]|] eqn:E;
      [|apply Hexec in E; [done|by left]].
    cbn [app]. erewrite for_cons_ok; [|exact Hround].
    match goal with |- context [for_ _ _ ?w1] =>
      destruct (IH (fun s' c env n Hs => Hexec s' c env n (or_intror Hs))
                  rest w1) as [fs' ->] end.
    exists fs'. cbn [fs cwd environ trace flat_map].
    by rewrite <-!app_assoc.
Qed.

Lemma spawned_check_events (env : gmap string string)
    (sources : list string) :
  spawned (flat_map (check_events sys_executable okd verbose env) sources)
  = map (pychok_argv sys_executable okd) sources.
Proof.
  induction sources as [|s sources IH]; [done|].
  cbn [flat_map map]. rewrite spawned_app, IH. unfold check_events.
  by destruct (0 <? verbose)%Z.
Qed.

Lemma printed_check_events (env : gmap string string)
    (sources : list string) :
  printed (flat_map (check_events sys_executable okd verbose env) sources)
  = if (0 <? verbose)%Z then map checking_line sources else [].
Proof.
  induction sources as [|s sources IH]; [by destruct (0 <? verbose)%Z|].
  cbn [flat_map map]. unfold printed in *. rewrite flat_map_app, IH.
  unfold check_events. by destruct (0 <? verbose)%Z.
Qed.

End run_pychecker_more.

(** X7: for any roots, either value of [OKd] and any integer verbosity,
    and the interpreter being executable: [run_pychecker] returns, leaving
    the working directory and the environment as they were; it has spawned
    one check per path that [get_files] found at the start, in that order,
    with [--] or [-no-OKd] as [OKd] says; and it has printed one
    [CHECKING <path> ...] line per path when the level is positive, nothing
    otherwise. *)
Theorem run_pychecker_trace (py : pyver) (sys_executable : string)
    (external : list string -> list string -> gmap string string ->
                FS.node -> option (FS.node * Z))
    (dirs : list string) (okd : bool) (verbose : Z) (w : world) :
  (forall src c env n,
     external (pychok_argv sys_executable okd src) c env n <> None) ->
  exists w' t,
    run_pychecker py sys_executable external dirs okd (PyInt verbose) w
    = Ok tt w'
    /\ cwd w' = cwd w
    /\ environ w' = environ w
    /\ trace w' = trace w ++ t
    /\ spawned t
       = map (pychok_argv sys_executable okd)
             (get_files (fs w) (cwd w) dirs Re.py_pattern)
    /\ printed t
       = if (0 <? verbose)%Z
         then map checking_line (get_files (fs w) (cwd w) dirs Re.py_pattern)
         else [].
Proof.
  intros Hexec.
  destruct (check_rounds py sys_executable external okd verbose
              (get_files (fs w) (cwd w) dirs Re.py_pattern)
              (fun s c env n _ => Hexec s c env n) [] w) as [fs' Hloop].
  rewrite app_nil_r in Hloop.
  eexists _, _. split.
  { unfold run_pychecker. unfold bind at 1. exact Hloop. }
  cbn [cwd environ trace]. repeat split; try done.
  - apply spawned_check_events.
  - apply printed_check_events.
Qed.

Lemma run_pychecker_trace_witness :
  exists w' t,
    run_pychecker Py3 "/usr/bin/python" (ext_status 1) ["pympler"; "pkg"]
      false (PyInt 0) w_proj = Ok tt w'
    /\ trace w' = trace w_proj ++ t
    /\ spawned t
       = [ ["/usr/bin/python"; "tools/pychok.py"; "-no-OKd"; "--stdlib";
            "--quiet"; "pympler/asizeof.py"];
           ["/usr/bin/python"; "tools/pychok.py"; "-no-OKd"; "--stdlib";
            "--quiet"; "pkg/mod.py"];
           ["/usr/bin/python"; "tools/pychok.py"; "-no-OKd"; "--stdlib";
            "--quiet"; "pkg/sub/util.py"] ]
    /\ printed t = [].
Proof.
  destruct (run_pychecker_trace Py3 "/usr/bin/python" (ext_status 1)
              ["pympler"; "pkg"] false 0 w_proj)
    as (w' & t & Hw & _ & _ & Ht & Hs & Hp); [done|].
  exists w', t. repeat split; [exact Hw | exact Ht | exact Hs | exact Hp].
Defined.

(** X8: a check that cannot be executed ends the loop.  When the sources
    found are [pre], then [src], then [rest], the checks of [pre] can be
    executed and the check of [src] cannot, [run_pychecker] raises
    [OSError], having spawned the checks of [pre] and of [src] only: the
    sources in [rest] are never checked. *)
Theorem run_pychecker_stops_at_failure (py : pyver) (sys_executable : string)
    (external : list string -> list string -> gmap string string ->
                FS.node -> option (FS.node * Z))
    (dirs : list string) (okd : bool) (verbose : Z) (w : world)
    (pre : list string) (src : string) (rest : list string) :
  get_files (fs w) (cwd w) dirs Re.py_pattern = pre ++ src :: rest ->
  (forall s c env n,
     In s pre -> external (pychok_argv sys_executable okd s) c env n <> None) ->
  (forall c env n,
     external (pychok_argv sys_executable okd src) c env n = None) ->
  exists w' t,
    run_pychecker py sys_executable external dirs okd (PyInt verbose) w
    = Raise OSError w'
    /\ trace w' = trace w ++ t
    /\ spawned t = map (pychok_argv sys_executable okd) (pre ++ [src]).
Proof.
  intros Hsrc Hpre Hnone.
  destruct (check_rounds py sys_executable external okd verbose pre Hpre
              (src :: rest) w) as [fs' Hloop].
  pose proof (check_round py sys_executable external okd verbose src
                {| fs := fs'; cwd := cwd w; environ := environ w;
                   trace := trace w
                            ++ flat_map (check_events sys_executable okd
                                           verbose (environ w)) pre |})
    as Hround.
  rewrite Hnone in Hround. cbv zeta in Hround.
  eexists _, _. split.
  { unfold run_pychecker. unfold bind at 1. rewrite Hsrc, Hloop.
    cbn [for_]. unfold bind at 1. by rewrite Hround. }
  cbn [cwd environ trace]. rewrite <-app_assoc. split; [done|].
  rewrite spawned_app, spawned_check_events, map_app. f_equal.
  unfold check_events. by destruct (0 <? verbose)%Z.
Qed.

Lemma run_pychecker_stops_at_failure_witness :
  exists w' t,
    run_pychecker Py2 "/usr/bin/python" (fun _ _ _ _ => None) ["pkg"]
      true (PyInt 2) w_proj = Raise OSError w'
    /\ trace w' = trace w_proj ++ t
    /\ spawned t
       = [ ["/usr/bin/python"; "tools/pychok.py"; "--"; "--stdlib";
            "--quiet"; "pkg/mod.py"] ].
Proof.
  apply (run_pychecker_stops_at_failure Py2 "/usr/bin/python"
           (fun _ _ _ _ => None) ["pkg"] true 2 w_proj
           [] "pkg/mod.py" ["pkg/sub/util.py"]); [reflexivity| |done].
  intros s c env n [].
Defined.

(** ** The names the two patterns of the script accept *)

Section pattern_names.

Import Re.

(** The end of both patterns, [.py$]: one character that is no newline,
    then [py], then the end of the name or its closing newline. *)
Lemma dot_py_tail (b : bool) (rest : string) :
  accept (Cat AnyChar (lits "py" Eol)) b rest (fun _ _ => true) = true
  <-> exists c tail,
        rest = String c ("py" +:+ tail)
        /\ Ascii.eqb c newline = false
        /\ (tail = "" \/ tail = String newline "").
Proof.
  split.
  - destruct rest as [|c [|p [|y tail]]]; simpl;
      rewrite ?andb_false_r; try done.
    rewrite !andb_true_iff, negb_true_iff.
    intros (Hc & ->%Ascii.eqb_eq & ->%Ascii.eqb_eq & Htail & _).
    exists c, tail. split; [done|]. split; [done|].
    destruct tail as [|n [|]]; simpl in Htail; [by left| |done].
    apply Ascii.eqb_eq in Htail as ->. by right.
  - intros (c & tail & -> & Hc & [->| ->]); simpl; by rewrite Hc.
Qed.

(** Where the star of [[^\n]*] can stop. *)
Lemma star_notnl_inv (k : bool -> string -> bool) (fuel : nat) :
  forall b s,
    star_iter (accept (NotIn [newline])) k fuel b s = true ->
    exists stem rest b',
      s = stem +:+ rest /\ no_newline stem = true /\ k b' rest = true.
Proof.
  induction fuel as [|fuel IH]; intros b s; cbn [star_iter].
  - simpl. intros H. by exists "", s, b.
  - rewrite orb_true_iff. intros [H|H]; [|by exists "", s, b].
    destruct s as [|x s]; [done|]. simpl in H.
    rewrite orb_false_r in H.
    apply andb_true_iff in H as [Hx [_ H]%andb_true_iff].
    apply IH in H as (stem & rest & b' & -> & Hnl & Hk).
    exists (String x stem), rest, b'. simpl. by rewrite Hx, Hnl.
Qed.

Lemma accept_py_pattern (b : bool) (s : string) :
  accept py_pattern b s (fun _ _ => true) = true
  <-> exists stem c tail,
        s = stem +:+ String c ("py" +:+ tail)
        /\ no_newline stem = true
        /\ Ascii.eqb c newline = false
        /\ (tail = "" \/ tail = String newline "").
Proof.
  change (accept py_pattern b s (fun _ _ => true))
    with (star_iter (accept (NotIn [newline]))
            (fun bol' s' =>
               accept (Cat AnyChar (lits "py" Eol)) bol' s' (fun _ _ => true))
            (String.length s) b s).
  split.
  - intros (stem & rest & b' & -> & Hnl & Hk)%star_notnl_inv.
    apply dot_py_tail in Hk as (c & tail & -> & Hc & Htail).
    by exists stem, c, tail.
  - intros (stem & c & tail & -> & Hnl & Hc & Htail).
    apply star_notnl_prefix; [|done|rewrite length_append; lia].
    intros b'. apply dot_py_tail. by exists c, tail.
Qed.

End pattern_names.

(** X9: the names [run_pychecker] has checked are exactly those made of
    any text without a newline, one more character that is no newline, and
    [py], possibly closed by a newline.  So every [*.py] name without a
    newline is among them, and so is a name such as [happy]: the dot of the
    pattern is not escaped. *)
Theorem py_pattern_names (name : string) :
  Re.re_match Re.py_pattern name = true
  <-> exists stem c tail,
        name = stem +:+ String c ("py" +:+ tail)
        /\ Re.no_newline stem = true
        /\ Ascii.eqb c Re.newline = false
        /\ (tail = "" \/ tail = String Re.newline "").
Proof. apply accept_py_pattern. Qed.

(** X10: the default pattern of [get_files] accepts exactly the names
    that start with [test_] and go on as the names above do: text without a
    newline, one more character, [py], and possibly a closing newline. *)
Theorem test_pattern_names (name : string) :
  Re.re_match Re.test_pattern name = true
  <-> exists stem c tail,
        name = "test_" +:+ stem +:+ String c ("py" +:+ tail)
        /\ Re.no_newline stem = true
        /\ Ascii.eqb c Re.newline = false
        /\ (tail = "" \/ tail = String Re.newline "").
Proof.
  unfold Re.re_match, Re.test_pattern.
  change (Re.Cat (Re.Star (Re.NotIn [Re.newline]))
            (Re.Cat Re.AnyChar (Re.lits "py" Re.Eol))) with Re.py_pattern.
  split.
  - destruct name as [|a [|b [|c [|d [|e rest]]]]]; simpl;
      rewrite ?andb_false_r; try done.
    rewrite !andb_true_iff.
    intros (->%Ascii.eqb_eq & ->%Ascii.eqb_eq & ->%Ascii.eqb_eq
            & ->%Ascii.eqb_eq & ->%Ascii.eqb_eq & H).
    apply accept_py_pattern in H as (stem & x & tail & -> & H).
    by exists stem, x, tail.
  - intros (stem & x & tail & -> & H). simpl.
    apply accept_py_pattern. by exists stem, x, tail.
Qed.

(** ** File discovery, continued *)

Section get_files_more.

Import FS.

Lemma join_extends (a b : string) :
  Path.startswith_sep b = false -> exists rest, Path.join a b = a +:+ rest.
Proof.
  intros Hb. unfold Path.join. rewrite Hb.
  destruct (Path.is_empty a || Path.endswith_sep a); eauto.
Qed.

(** Every directory a walk visits is named by the top it started from,
    followed by something. *)
Lemma walk_node_tops (n : node) :
  forall top r ds fs,
    wf n = true -> In (r, ds, fs) (walk_node top n) ->
    exists rest, r = top +:+ rest.
Proof.
  induction n as [|es IH] using node_ind'; intros top r ds fs Hwf; [done|].
  rewrite walk_node_Dir. intros [[= <- <- <-]|Hin].
  - exists "". by rewrite append_nil_r.
  - apply in_flat_map in Hin as [[name child] [He Hin]].
    apply list_elem_of_In in He.
    rewrite Forall_forall in IH. specialize (IH _ He).
    apply wf_Dir in Hwf. rewrite Forall_forall in Hwf.
    destruct (Hwf _ He) as [Hname Hc]. simpl in *.
    destruct child as [|es']; [done|].
    destruct (IH _ _ _ _ Hc Hin) as [rest ->].
    destruct (join_extends top name) as [rest' ->].
    { by apply startswith_no_sep, valid_name_no_sep. }
    exists (rest' +:+ rest). by rewrite append_assoc.
Qed.

End get_files_more.

(** X11: every path [get_files] returns is one of the root locations as it
    was written, followed by what the walk added to it (nothing for a file
    root): results are never made absolute or normalised. *)
Theorem get_files_extends_root (root : FS.node) (cwd : list string)
    (locations : list string) (pattern : Re.regex) (p : string) :
  FS.wf root = true ->
  In p (get_files root cwd locations pattern) ->
  exists location rest, In location locations /\ p = location +:+ rest.
Proof.
  intros Hwf. rewrite get_files_flat_map, in_flat_map.
  intros [location [Hloc Hp]]. exists location.
  cut (exists rest, p = location +:+ rest); [intros [rest ->]; eauto|].
  unfold location_files in Hp.
  destruct (FS.isfile root cwd location).
  { destruct (Re.re_match pattern _); [|done]. destruct Hp as [<-|[]].
    exists "". by rewrite append_nil_r. }
  destruct (FS.isdir root cwd location); [|done].
  apply in_flat_map in Hp as [[[r ds] fs] [Hw Hp]].
  apply in_flat_map in Hp as [fn [Hfn Hp]].
  destruct (Re.re_match pattern fn); [|done]. destruct Hp as [<-|[]].
  unfold FS.walk in Hw.
  destruct (FS.resolve root cwd location) as [q|]; [|done].
  destruct (FS.get root q) as [n|] eqn:Hq; [|done].
  assert (FS.wf n = true) as Hn by by eapply get_wf.
  destruct (walk_node_tops n _ _ _ _ Hn Hw) as [rest ->].
  destruct (join_extends (location +:+ rest) fn) as [rest' ->].
  { apply startswith_no_sep, valid_name_no_sep.
    by eapply walk_node_files_valid. }
  exists (rest +:+ rest'). by rewrite append_assoc.
Qed.

Lemma get_files_extends_root_witness :
  exists location rest,
    In location ["run.py"; "test"]
    /\ "test/sub/test_b.py" = location +:+ rest.
Proof.
  apply (get_files_extends_root fs0 [] ["run.py"; "test"] Re.py_pattern).
  - reflexivity.
  - vm_compute. tauto.
Defined.



(** X13: the roots are searched one by one, in input order, each on its
    own: the result is the concatenation of the results of the single
    roots, with no merging and no removal of duplicates. *)
Theorem get_files_root_by_root (root : FS.node) (cwd : list string)
    (locations : list string) (pattern : Re.regex) :
  get_files root cwd locations pattern
  = flat_map (fun location => get_files root cwd [location] pattern)
             locations.
Proof.
  rewrite get_files_flat_map. apply flat_map_ext. intros location.
  rewrite get_files_flat_map. simpl. by rewrite app_nil_r.
Qed.

(** ** What directory reset does achieve *)

Section dir_clear_creates.

Import FS.

Lemma find_entry_snoc_new (c : string) (es : list (string * node))
    (x : node) :
  find_entry c es = None -> find_entry c (es ++ [(c, x)]) = Some x.
Proof.
  induction es as [|[n z] es IH]; simpl.
  - by rewrite String.eqb_refl.
  - by destruct (String.eqb n c).
Qed.

(** The directory [mkdir] creates is there, and empty. *)
Lemma get_alter_snoc (c : string) (acc : list string) :
  forall root es,
    get root acc = Some (Dir es) -> find_entry c es = None ->
    get (alter_entries (fun es => es ++ [(c, Dir [])]) acc root) (acc ++ [c])
    = Some (Dir []).
Proof.
  induction acc as [|a acc IH]; intros root es; simpl.
  - intros [= ->] Hc. simpl. by rewrite find_entry_snoc_new.
  - destruct root as [|es0]; [done|].
    destruct (find_entry a es0) as [y|] eqn:Hy; [|done]. intros Hget Hc.
    simpl. rewrite (find_entry_replace_eq _ _ _ _ Hy). by eapply IH.
Qed.

Lemma is_dir_at_alter_self (f : list (string * node) -> list (string * node))
    (p : list string) :
  forall root,
    is_dir_at root p = true -> is_dir_at (alter_entries f p root) p = true.
Proof.
  induction p as [|c p IH]; intros root.
  - destruct root as [|es]; done.
  - destruct root as [|es]; [done|]. rewrite is_dir_at_cons.
    destruct (find_entry c es) as [x|] eqn:Hx; [|done]. intros Hd.
    simpl. rewrite Hx, is_dir_at_cons, (find_entry_replace_eq _ _ _ _ Hx).
    by apply IH.
Qed.

(** [mkdir -p] along names that are free or directories. *)
Lemma mkdir_names (names : list string) :
  Forall (fun c => Path.valid_name c = true) names ->
  forall root acc,
    is_dir_at root acc = true ->
    (forall k, is_file_at root (acc ++ take k names) = false) ->
    exists root',
      foldl mkdir_step (root, Some acc) names = (root', Some (acc ++ names))
      /\ is_dir_at root' (acc ++ names) = true
      /\ (names <> [] -> get root (acc ++ names) = None ->
          get root' (acc ++ names) = Some (Dir [])).
Proof.
  induction 1 as [|c names Hc Hnames IH]; intros root acc Hd Hfree.
  - exists root. rewrite app_nil_r. by split.
  - cbn [foldl]. unfold mkdir_step at 2. rewrite Hd. cbn [negb].
    unfold Path.valid_name in Hc.
    rewrite !andb_true_iff, !negb_true_iff in Hc.
    destruct Hc as [[[He _] Hdot] Hdd]. rewrite He, Hdot, Hdd. cbn [orb].
    destruct (get root (acc ++ [c])) as [x|] eqn:Hx.
    + assert (is_dir_at root (acc ++ [c]) = true) as Hd1.
      { specialize (Hfree 1%nat).
        change (take 1 (c :: names)) with [c] in Hfree.
        unfold is_dir_at. unfold is_file_at in Hfree.
        rewrite Hx in Hfree |- *. by destruct x. }
      destruct (IH root (acc ++ [c]) Hd1) as (root' & Hfold & Hd' & Hnew).
      { intros k. specialize (Hfree (S k)). simpl in Hfree.
        by rewrite <-app_assoc. }
      exists root'. rewrite <-app_assoc in Hfold, Hd', Hnew. simpl in *.
      split; [done|]. split; [done|]. intros _ Hmiss.
      apply Hnew; [|done]. intros ->. rewrite Hx in Hmiss. done.
    + assert (exists es, get root acc = Some (Dir es)
                         /\ find_entry c es = None) as (es & Hacc & Hfind).
      { unfold is_dir_at in Hd. rewrite get_app in Hx.
        destruct (get root acc) as [[|es]|]; try done. exists es.
        split; [done|]. simpl in Hx. by destruct (find_entry c es). }
      set (root1 := alter_entries (fun es => es ++ [(c, Dir [])]) acc root).
      assert (get root1 (acc ++ [c]) = Some (Dir [])) as Hnewdir
        by by eapply get_alter_snoc.
      assert (forall q, q <> [] -> get root1 ((acc ++ [c]) ++ q) = None)
        as Hempty.
      { intros q Hq. rewrite get_app, Hnewdir. by destruct q. }
      destruct (IH root1 (acc ++ [c])) as (root' & Hfold & Hd' & Hnew).
      { unfold is_dir_at. by rewrite Hnewdir. }
      { intros k. unfold is_file_at. destruct (take k names) as [|y q] eqn:E.
        - by rewrite app_nil_r, Hnewdir.
        - by rewrite Hempty. }
      exists root'. rewrite <-app_assoc in Hfold, Hd', Hnew. simpl in *.
      split; [done|]. split; [done|]. intros _ _.
      destruct names as [|y names'].
      * simpl in Hfold. assert (root' = root1) as -> by congruence. done.
      * apply Hnew; [done|].
        change (acc ++ c :: y :: names') with (acc ++ [c] ++ y :: names').
        rewrite app_assoc. by apply Hempty.
Qed.

Lemma join_sep_names (names : list string) :
  names <> [] -> Forall (fun c => Path.valid_name c = true) names ->
  Path.is_empty (Path.join_sep names) = false
  /\ Path.startswith_sep (Path.join_sep names) = false.
Proof.
  destruct names as [|c names]; [done|]. intros _ [Hc _]%Forall_cons.
  unfold Path.valid_name in Hc. rewrite !andb_true_iff, !negb_true_iff in Hc.
  destruct Hc as [[[He Hs] _] _].
  destruct c as [|x c]; [done|]. simpl in Hs.
  apply orb_false_iff in Hs as [Hx _].
  destruct names; simpl; by rewrite ?Hx.
Qed.

Lemma resolve_join_star_eq (root : node) (cwd : list string)
    (path : string) (p p' : list string) :
  resolve root cwd path = Some p ->
  resolve root cwd (Path.join path "*") = Some p' ->
  p' = p ++ ["*"].
Proof.
  unfold resolve. destruct (Path.is_empty path) eqn:He; [done|].
  rewrite is_empty_join by done. rewrite startswith_sep_join by done.
  destruct (split_join_star path) as (l & -> & Hl).
  rewrite foldl_app. simpl. intros Hp.
  assert (foldl (resolve_step root)
            (Some (if Path.startswith_sep path then [] else cwd)) l = Some p)
    as ->.
  { destruct Hl as [Hl|Hl]; rewrite Hl in Hp; [done|].
    rewrite foldl_app in Hp. simpl in Hp. by apply resolve_step_empty in Hp. }
  by intros (q & [= <-] & -> & _)%resolve_step_star.
Qed.

End dir_clear_creates.

(** X15: what [dir_clear] does achieve.  For a relative path made of
    plain names that the two programs do not read as options and that is
    within the limits of the system, from a working directory that exists,
    with no regular file in the way: [dir_clear] returns and the path then
    names a directory; and when there was nothing at the path before, the
    directory it made is empty. *)
Theorem dir_clear_makes_directory
    (external : list string -> list string -> gmap string string ->
                FS.node -> option (FS.node * Z))
    (names : list string) (w : world) :
  names <> [] ->
  Forall (fun c => Path.valid_name c = true) names ->
  FS.is_option_arg (Path.join_sep names) = false ->
  FS.within_limits (Path.join (Path.join_sep names) "*") = true ->
  FS.is_dir_at (fs w) (cwd w) = true ->
  (forall k, FS.is_file_at (fs w) (cwd w ++ take k names) = false) ->
  exists w',
    dir_clear external (Path.join_sep names) w = Ok tt w'
    /\ FS.isdir (fs w') (cwd w') (Path.join_sep names) = true
    /\ (FS.get (fs w) (cwd w ++ names) = None ->
        FS.get (fs w') (cwd w ++ names) = Some (FS.Dir [])).
Proof.
  intros Hne Hv Hopt _ Hd Hfree. rewrite dir_clear_world. eexists.
  split; [done|]. cbn [fs cwd].
  destruct (join_sep_names names Hne Hv) as [He Hs].
  destruct (mkdir_names names Hv (fs w) (cwd w) Hd Hfree)
    as (root1 & Hfold & Hd1 & Hnew).
  assert (FS.mkdir_p (fs w) (cwd w) (Path.join_sep names) = (root1, 0%Z))
    as ->.
  { unfold FS.mkdir_p. rewrite Hopt, He, Hs, split_join_sep by done.
    by rewrite Hfold, Hd1. }
  cbn [fst].
  assert (FS.resolve root1 (cwd w) (Path.join_sep names)
          = Some (cwd w ++ names)) as Hres1.
  { unfold FS.resolve. rewrite He, Hs, split_join_sep by done.
    by apply foldl_resolve_dir. }
  assert (forall root2,
            FS.is_dir_at root2 (cwd w ++ names) = true ->
            FS.isdir root2 (cwd w) (Path.join_sep names) = true) as Hisdir.
  { intros root2 Hd2. unfold FS.isdir, FS.resolve.
    rewrite He, Hs, split_join_sep by done.
    by rewrite foldl_resolve_dir, Hd2. }
  unfold FS.rm_rf.
  destruct (FS.is_option_arg (Path.join (Path.join_sep names) "*")).
  { cbn [fst]. split; [by apply Hisdir|]. intros Hmiss. by apply Hnew. }
  destruct (FS.resolve root1 (cwd w) (Path.join (Path.join_sep names) "*"))
    as [p'|] eqn:Hstar.
  - pose proof (resolve_join_star_eq _ _ _ _ _ Hres1 Hstar) as ->.
    destruct (_ || _); cbn [fst].
    { split; [by apply Hisdir|]. intros Hmiss. by apply Hnew. }
    rewrite last_snoc, removelast_last. cbn [fst]. split.
    + by apply Hisdir, is_dir_at_alter_self.
    + intros Hmiss. specialize (Hnew Hne Hmiss).
      unfold FS.resolve in Hstar. rewrite is_empty_join in Hstar by done.
      rewrite startswith_sep_join in Hstar by done.
      destruct (split_join_star (Path.join_sep names)) as (l & Hl & _).
      rewrite Hl, foldl_app in Hstar. simpl in Hstar.
      apply resolve_step_star in Hstar as (q & Hq & Heq & _ & Hget).
      apply app_inj_tail in Heq as [<- _].
      rewrite get_app, Hnew in Hget. done.
  - cbn [fst]. split; [by apply Hisdir|]. intros Hmiss. by apply Hnew.
Qed.

Lemma dir_clear_makes_directory_witness :
  exists w',
    dir_clear (ext_status 0) (Path.join_sep ["build"; "latex"]) w_doc
    = Ok tt w'
    /\ FS.isdir (fs w') (cwd w') (Path.join_sep ["build"; "latex"]) = true
    /\ (FS.get (fs w_doc) (cwd w_doc ++ ["build"; "latex"]) = None ->
        FS.get (fs w') (cwd w_doc ++ ["build"; "latex"])
        = Some (FS.Dir [])).
Proof.
  apply (dir_clear_makes_directory (ext_status 0) ["build"; "latex"] w_doc).
  - done.
  - by repeat constructor.
  - reflexivity.
  - reflexivity.
  - reflexivity.
  - intros [|[|[|k]]]; reflexivity.
Defined.

(** ** Headlines *)

Lemma py_repeat_length (c : ascii) (n : nat) :
  String.length (py_repeat c n) = n.
Proof. induction n as [|n IH]; simpl; [done | by rewrite IH]. Qed.

Lemma py_repeat_all_char (c : ascii) (n : nat) :
  all_char c (py_repeat c n) = true.
Proof.
  induction n as [|n IH]; simpl; [done|]. by rewrite Ascii.eqb_refl, IH.
Qed.

(** X16: with a positive integer level, [print2] prints a blank line, and
    for a text that is not empty the text and under it a line of [=] signs
    of exactly the length of the text; for the empty text the blank line is
    all.  Nothing else in the world changes. *)
Theorem print2_headline (py : pyver) (text : string) (verbose : Z)
    (w : world) :
  (0 < verbose)%Z ->
  exists lines,
    print2 py text (PyInt verbose) w
    = Ok tt {| fs := fs w; cwd := cwd w; environ := environ w;
               trace := trace w ++ map Print lines |}
    /\ (text = "" -> lines = [""])
    /\ (text <> "" ->
        exists underline,
          lines = [""; text; underline]
          /\ String.length underline = String.length text
          /\ all_char "=" underline = true).
Proof.
  intros Hpos%Z.ltb_lt. unfold print2, bind, gt_zero, ret, when, print.
  rewrite Hpos. destruct text as [|c text].
  - exists [""]. simpl. by repeat split.
  - exists [""; String c text;
            py_repeat "=" (String.length (String c text))].
    cbn [Path.is_empty negb fs cwd environ trace map].
    rewrite <-!app_assoc. split; [done|]. split; [done|]. intros _.
    eexists. split; [done|].
    by rewrite py_repeat_length, py_repeat_all_char.
Qed.

Lemma print2_headline_witness :
  exists lines,
    print2 Py3 "Running doctest" (PyInt 2) w_proj
    = Ok tt {| fs := fs w_proj; cwd := cwd w_proj; environ := environ w_proj;
               trace := trace w_proj ++ map Print lines |}
    /\ ("Running doctest" = "" -> lines = [""])
    /\ ("Running doctest" <> "" ->
        exists underline,
          lines = [""; "Running doctest"; underline]
          /\ String.length underline = String.length "Running doctest"
          /\ all_char "=" underline = true).
Proof.
  apply (print2_headline Py3 "Running doctest" 2 w_proj). done.
Defined.

(** ** A verbosity given on the command line, under Python 3 *)

Lemma store_keeps_string (given : list cli_opt) :
  forall o s,
    V o = PyStr s -> exists s', V (foldl store o given) = PyStr s'.
Proof.
  induction given as [|c given IH]; intros o s Hs; cbn [foldl]; [eauto|].
  destruct c; (eapply IH; simpl; (exact Hs || reflexivity)).
Qed.

Lemma store_verbose_string (given : list cli_opt) (v : string) :
  In (OptVerbose v) given ->
  forall o, exists s, V (foldl store o given) = PyStr s.
Proof.
  induction given as [|c given IH]; [done|]. intros [->|Hin] o; cbn [foldl].
  - by apply (store_keeps_string given _ v).
  - by apply IH.
Qed.

(** X17: under Python 3, once [-v/--verbose] is given on the command line
    and at least one task is selected, [main] raises [TypeError] in the
    first headline, whatever the value given: nothing is printed and
    nothing is spawned. *)
Theorem verbose_option_under_py3 (sys_executable sys_argv0 : string)
    (external : list string -> list string -> gmap string string ->
                FS.node -> option (FS.node * Z))
    (given : list cli_opt) (positional : list string) (w : world)
    (v : string) (t : task) :
  In (OptVerbose v) given ->
  enabled (expand_all (parse_args given positional).1) t = true ->
  main Py3 sys_executable sys_argv0 external given positional w
  = Raise TypeError w.
Proof.
  intros Hv Ht.
  destruct (store_verbose_string given v Hv default_options) as [s Hs].
  unfold main, parse_args in *. cbn [fst] in Ht.
  set (o := foldl store default_options given) in *.
  assert (V (expand_all o) = PyStr s) as HV.
  { unfold expand_all. by destruct (all o). }
  unfold bind at 1. cbn [getcwd]. rewrite !HV.
  destruct (pychecker (expand_all o)) eqn:H1; [done|].
  destruct (changes (expand_all o)) eqn:H2; [done|].
  destruct (doctest (expand_all o)) eqn:H3; [done|].
  destruct (html (expand_all o)) eqn:H4; [done|].
  destruct (latex (expand_all o)) eqn:H5; [done|].
  destruct (linkcheck (expand_all o)) eqn:H6; [done|].
  destruct (test (expand_all o)) eqn:H7; [done|].
  destruct t; simpl in Ht; congruence.
Qed.

Lemma verbose_option_under_py3_witness :
  main Py3 "/usr/bin/python" "run.py" (ext_status 0)
    [OptVerbose "1"; OptTest] [] w_proj
  = Raise TypeError w_proj.
Proof.
  apply (verbose_option_under_py3 "/usr/bin/python" "run.py" (ext_status 0)
           [OptVerbose "1"; OptTest] [] w_proj "1" TTest).
  - by left.
  - reflexivity.
Defined.
